(** * conbuilder: layered build cache over overlay mounts

    A shallow embedding of [conbuilder.py] and the properties its
    specification states about it.

    - Python [str] values are modelled by [string]: the UTF-8 bytes of the
      text.  Byte order on UTF-8 coincides with code-point order, so
      comparisons, [startswith], [split] and slicing on ASCII separators
      agree with Python's.
    - [pathlib.Path] values are modelled by their string form; [p </> c]
      is [p / c] for a relative component [c].  Where the Python type of a
      value decides the outcome, in the arguments that [info] and [error]
      hand to [str.join], it is kept: these arguments are [pyval]s.
    - Everything outside the program (the commands started by [run], the
      probes [is_file] / [is_dir], failures of [mkdir] and [open]) is
      answered by an [environment], a function of the transcript of the
      session so far.  The program's own view of the layer directories it
      creates is kept in the [world]. *)

From stdpp Require Import gmap strings list sorting.
From Stdlib Require Import ZArith String Ascii.
From Stdlib Require OrderedTypeEx.

Open Scope string_scope.
Open Scope Z_scope.

Set Warnings "-clear-no-such-hyp".

(* stdpp keeps [simpl] from unfolding string concatenation; the command
   lines of the program are concatenations of literals and paths. *)
#[global] Arguments String.append !s1 s2 : simpl nomatch.

(** ** Python string operations used by the program *)

Module PyStr.

(** [s.startswith(p)] *)
Definition startswith (p s : string) : bool := String.prefix p s.

(** [s[1:]] *)
Definition tail (s : string) : string :=
  match s with
  | EmptyString => EmptyString
  | String _ r => r
  end.

(** First occurrence of the separator: the text before it and the text
    after it. *)
Fixpoint break (sep : ascii) (s : string) : option (string * string) :=
  match s with
  | EmptyString => None
  | String c r =>
      if Ascii.eqb c sep then Some (EmptyString, r)
      else match break sep r with
           | Some (a, b) => Some (String c a, b)
           | None => None
           end
  end.

(** [s.split(sep, maxsplit)] for a one-character separator: at most
    [maxsplit] cuts, leftmost first; empty fields are kept. *)
Fixpoint split (sep : ascii) (maxsplit : nat) (s : string) : list string :=
  match maxsplit with
  | O => [s]
  | S k =>
      match break sep s with
      | None => [s]
      | Some (a, b) => a :: split sep k b
      end
  end.

(** [sep.join(l)] *)
Definition join (sep : string) (l : list string) : string := String.concat sep l.

(** The characters [bytes.rstrip()] removes: space, tab, newline, vertical
    tab, form feed, carriage return. *)
Definition is_space (c : ascii) : bool :=
  let n := nat_of_ascii c in
  (Nat.eqb n 32 || (Nat.leb 9 n && Nat.leb n 13))%bool.

(** [s.rstrip()] *)
Fixpoint rstrip (s : string) : string :=
  match s with
  | EmptyString => EmptyString
  | String c r =>
      match rstrip r with
      | EmptyString => if is_space c then EmptyString else String c EmptyString
      | r' => String c r'
      end
  end.

End PyStr.

(** ** [bytes.decode()] *)

Module Utf8.

Definition between (lo hi : nat) (c : ascii) : bool :=
  let n := nat_of_ascii c in (Nat.leb lo n && Nat.leb n hi)%bool.

(** A continuation byte. *)
Definition cont (c : ascii) : bool := between 128 191 c.

(** The byte strings the strict UTF-8 decoder accepts: shortest forms
    only, no surrogate, nothing above U+10FFFF.  On these [decode] is the
    identity of the model, a [str] being held as its UTF-8 bytes; on the
    others it raises [UnicodeDecodeError]. *)
Fixpoint valid (s : string) : bool :=
  match s with
  | EmptyString => true
  | String c r =>
      let n := nat_of_ascii c in
      if Nat.ltb n 128 then valid r
      else if between 194 223 c then
        match r with
        | String c1 r1 => (cont c1 && valid r1)%bool
        | _ => false
        end
      else if between 224 239 c then
        match r with
        | String c1 (String c2 r2) =>
            ((if Nat.eqb n 224 then between 160 191 c1
              else if Nat.eqb n 237 then between 128 159 c1
              else cont c1)
             && cont c2 && valid r2)%bool
        | _ => false
        end
      else if between 240 244 c then
        match r with
        | String c1 (String c2 (String c3 r3)) =>
            ((if Nat.eqb n 240 then between 144 191 c1
              else if Nat.eqb n 244 then between 128 143 c1
              else cont c1)
             && cont c2 && cont c3 && valid r3)%bool
        | _ => false
        end
      else false
  end.

Definition bytes (l : list Z) : string :=
  string_of_list_ascii (map (fun b => ascii_of_nat (Z.to_nat b)) l).

Example valid_ex :
  valid "Inst foo (1.0 Debian:unstable [amd64])" = true
  /\ valid (bytes [226; 130; 172]) = true         (* U+20AC *)
  /\ valid (bytes [240; 159; 152; 128]) = true    (* U+1F600 *)
  /\ valid (bytes [102; 255]) = false             (* a stray 0xff *)
  /\ valid (bytes [192; 128]) = false             (* overlong *)
  /\ valid (bytes [237; 160; 128]) = false        (* a surrogate *)
  /\ valid (bytes [244; 144; 128; 128]) = false   (* above U+10FFFF *)
  /\ valid (bytes [226; 130]) = false.            (* cut short *)
Proof. repeat split. Qed.

End Utf8.

(** ** Python [repr] of the values that are hashed *)

Module PyRepr.

Definition hex_digit (n : nat) : ascii :=
  ascii_of_nat (if Nat.ltb n 10 then 48 + n else 87 + n).

Fixpoint contains (c : ascii) (s : string) : bool :=
  match s with
  | EmptyString => false
  | String d r => (Ascii.eqb c d || contains c r)%bool
  end.

(** One character inside the quotes.  Bytes from 0x80 on (parts of the
    UTF-8 form of a non-ASCII character) are kept, as [repr] keeps the
    printable non-ASCII characters.  [repr] escapes the non-ASCII
    characters that are not printable (U+00A0 for one): for a name with
    such a character the text built here, and so the value of the
    fingerprint, is not Python's. *)
Definition escape (quote c : ascii) : string :=
  let n := nat_of_ascii c in
  if (Ascii.eqb c quote || Ascii.eqb c "\"%char)%bool then String "\"%char (String c "")
  else if Nat.eqb n 9 then "\t"
  else if Nat.eqb n 10 then "\n"
  else if Nat.eqb n 13 then "\r"
  else if (Nat.ltb n 32 || Nat.eqb n 127)%bool
       then String "\"%char (String "x"%char
              (String (hex_digit (Nat.div n 16)) (String (hex_digit (Nat.modulo n 16)) "")))
  else String c "".

Fixpoint escape_all (quote : ascii) (s : string) : string :=
  match s with
  | EmptyString => EmptyString
  | String c r => escape quote c ++ escape_all quote r
  end.

(** [repr(s)] for a [str]: single quotes, unless the text has a single
    quote and no double quote. *)
Definition repr_str (s : string) : string :=
  let quote :=
    if (contains "'"%char s && negb (contains (ascii_of_nat 34) s))%bool
    then ascii_of_nat 34 else "'"%char in
  String quote (escape_all quote s ++ String quote "").

(** [repr((name, version))] *)
Definition repr_dep (d : string * string) : string :=
  "(" ++ repr_str (fst d) ++ ", " ++ repr_str (snd d) ++ ")".

(** [repr(l)], which is also [str(l)], for a list of pairs *)
Definition repr_deps (l : list (string * string)) : string :=
  "[" ++ PyStr.join ", " (map repr_dep l) ++ "]".

End PyRepr.

(** ** SHA-224 ([hashlib.sha224]), on 32-bit words held in [Z] *)

Module Sha224.

Definition w32 (x : Z) : Z := Z.land x 0xffffffff.
Definition add32 (x y : Z) : Z := w32 (x + y).
Definition rotr (n x : Z) : Z := Z.lor (Z.shiftr x n) (w32 (Z.shiftl x (32 - n))).
Definition not32 (x : Z) : Z := Z.lxor x 0xffffffff.

Definition Ch (x y z : Z) : Z := Z.lxor (Z.land x y) (Z.land (not32 x) z).
Definition Maj (x y z : Z) : Z :=
  Z.lxor (Z.lxor (Z.land x y) (Z.land x z)) (Z.land y z).
Definition Sigma0 (x : Z) : Z := Z.lxor (Z.lxor (rotr 2 x) (rotr 13 x)) (rotr 22 x).
Definition Sigma1 (x : Z) : Z := Z.lxor (Z.lxor (rotr 6 x) (rotr 11 x)) (rotr 25 x).
Definition sigma0 (x : Z) : Z := Z.lxor (Z.lxor (rotr 7 x) (rotr 18 x)) (Z.shiftr x 3).
Definition sigma1 (x : Z) : Z := Z.lxor (Z.lxor (rotr 17 x) (rotr 19 x)) (Z.shiftr x 10).

(** The constants of the standard are derived from the first primes: the
    round constants are the first 32 bits of the fractional parts of their
    cube roots, the initial values of SHA-224 the second 32 bits of the
    fractional parts of the square roots of the ninth to sixteenth. *)
Definition is_prime (n : Z) : bool :=
  forallb (fun d => negb (n mod d =? 0)) (seqZ 2 (Z.sqrt n - 1)).

Definition primes : list Z := List.filter is_prime (seqZ 2 310).

(** Integer cube root by bisection: the largest [r] in [[lo, hi)] with
    [r^3 <= n]. *)
Fixpoint cbrt_between (fuel : nat) (lo hi n : Z) : Z :=
  match fuel with
  | O => lo
  | S k =>
      if hi - lo <=? 1 then lo
      else let mid := (lo + hi) / 2 in
           if mid * mid * mid <=? n then cbrt_between k mid hi n
           else cbrt_between k lo mid n
  end.

Definition K : list Z :=
  Eval vm_compute in
    map (fun p => w32 (cbrt_between 64 0 (2 ^ 36) (p * 2 ^ 96))) primes.

Definition state : Type := (Z * Z * Z * Z * Z * Z * Z * Z)%type.

Definition H0 : state :=
  Eval vm_compute in
    match map (fun p => w32 (Z.sqrt (p * 2 ^ 128))) (take 8 (drop 8 primes)) with
    | [a; b; c; d; e; f; g; h] => (a, b, c, d, e, f, g, h)
    | _ => (0, 0, 0, 0, 0, 0, 0, 0)
    end.

Example K_ends : List.length K = 64%nat /\ nth 0 K 0 = 0x428a2f98 /\ nth 63 K 0 = 0xc67178f2.
Proof. repeat split. Qed.

Example H0_value :
  H0 = (0xc1059ed8, 0x367cd507, 0x3070dd17, 0xf70e5939,
        0xffc00b31, 0x68581511, 0x64f98fa7, 0xbefa4fa4).
Proof. reflexivity. Qed.

Definition bytes_of (s : string) : list Z :=
  map (fun c => Z.of_nat (nat_of_ascii c)) (list_ascii_of_string s).

(** Big-endian bytes of [x], [n] of them. *)
Fixpoint be_bytes (n : nat) (x : Z) : list Z :=
  match n with
  | O => []
  | S k => Z.land (Z.shiftr x (8 * Z.of_nat k)) 0xff :: be_bytes k x
  end.

(** The message, the byte 0x80, zeros up to 56 modulo 64, and the length in
    bits on 64 bits. *)
Definition pad (msg : list Z) : list Z :=
  let len := Z.of_nat (List.length msg) in
  let zeros := Z.to_nat ((55 - len) mod 64) in
  (msg ++ 0x80 :: repeat 0 zeros ++ be_bytes 8 (8 * len))%list.

Fixpoint words (n : nat) (bs : list Z) : list Z :=
  match n, bs with
  | S k, b0 :: b1 :: b2 :: b3 :: r =>
      Z.lor (Z.shiftl b0 24) (Z.lor (Z.shiftl b1 16) (Z.lor (Z.shiftl b2 8) b3)) :: words k r
  | _, _ => []
  end.

Definition nthw (l : list Z) (i : nat) : Z := nth i l 0.

(** Message schedule: [w] holds W[0..t-1]; [n] words are still to add. *)
Fixpoint schedule (n : nat) (w : list Z) : list Z :=
  match n with
  | O => w
  | S k =>
      let t := List.length w in
      let x := add32 (add32 (sigma1 (nthw w (t - 2))) (nthw w (t - 7)))
                     (add32 (sigma0 (nthw w (t - 15))) (nthw w (t - 16))) in
      schedule k (w ++ [x])%list
  end.

Definition round (s : state) (kw : Z * Z) : state :=
  let '(a, b, c, d, e, f, g, h) := s in
  let t1 := add32 (add32 (add32 h (Sigma1 e)) (add32 (Ch e f g) (fst kw))) (snd kw) in
  let t2 := add32 (Sigma0 a) (Maj a b c) in
  (add32 t1 t2, a, b, c, add32 d t1, e, f, g).

Definition compress (hs : state) (block : list Z) : state :=
  let w := schedule 48 (words 16 block) in
  let '(a, b, c, d, e, f, g, h) := fold_left round (combine K w) hs in
  let '(a0, b0, c0, d0, e0, f0, g0, h0) := hs in
  (add32 a0 a, add32 b0 b, add32 c0 c, add32 d0 d,
   add32 e0 e, add32 f0 f, add32 g0 g, add32 h0 h).

Fixpoint blocks (n : nat) (hs : state) (bs : list Z) : state :=
  match n with
  | O => hs
  | S k => blocks k (compress hs (take 64 bs)) (drop 64 bs)
  end.

Definition to_hex (bs : list Z) : string :=
  string_of_list_ascii
    (flat_map (fun b => [PyRepr.hex_digit (Z.to_nat (b / 16)); PyRepr.hex_digit (Z.to_nat (b mod 16))]) bs).

(** [hashlib.sha224(msg).hexdigest()] *)
Definition hexdigest (msg : string) : string :=
  let bs := pad (bytes_of msg) in
  let '(a, b, c, d, e, f, g, _) := blocks (Nat.div (List.length bs) 64) H0 bs in
  to_hex (flat_map (be_bytes 4) [a; b; c; d; e; f; g]).

Example hexdigest_empty :
  hexdigest "" = "d14a028c2a3a2bc9476102bb288234c415a2b01f828ea62ac5b3e42f".
Proof. vm_compute. reflexivity. Qed.

Example hexdigest_abc :
  hexdigest "abc" = "23097d223405d8228642a477bda255b32aadbce4bda0b3f7e36c9da7".
Proof. vm_compute. reflexivity. Qed.

Example hexdigest_two_blocks :
  hexdigest "aaaaaaaaaaaaaaaaaaaaaaaaaaaaaaaaaaaaaaaaaaaaaaaaaaaaaaaaaaaaaaaaaaaaaa"
  = "e93442db5dbc03ad472bff5a35eae527f9ba128d507cc31e2b31ae2a".
Proof. vm_compute. reflexivity. Qed.

End Sha224.

(** ** Exceptions *)

Inductive exn : Type :=
| CommandError (cmd : string) (returncode : Z)
    (* [Exception("'{}' returned {}")] raised by [run] *)
| AssertionError (msg : string)
| ValueError
    (* tuple unpacking of a [split] result with fewer than four fields *)
| OSError (path : string)
    (* [FileExistsError], [PermissionError], ... from [mkdir] and [open] *)
| TypeError
    (* [str.join] on a sequence with an item that is not a [str] *)
| UnicodeDecodeError
    (* [bytes.decode()] on bytes that are not UTF-8 *)
| SystemExit (code : Z)
| IndexError
| NotImplementedError.

(** Outcome of a Python call: a value or a raised exception. *)
Inductive result (A : Type) : Type :=
| Ok (a : A)
| Raise (e : exn).
Arguments Ok {A} a.
Arguments Raise {A} e.

Definition is_ok {A} (r : result A) : bool :=
  match r with Ok _ => true | Raise _ => false end.

(** ** The dependency parser *)

Definition dep : Type := string * string.

Definition Inst_prefix : string := "Inst ".

(** ["Cannot parse version from %r" % line] *)
Definition parse_error_msg (line : string) : string :=
  "Cannot parse version from " ++ PyRepr.repr_str line.

(** One iteration of the loop of [_parse_build_deps]: [None] when the line
    is skipped by [continue], otherwise the pair added to [deps] or the
    exception raised. *)
Definition parse_line (line : string) : option (result dep) :=
  if negb (PyStr.startswith Inst_prefix line) then None
  else
    match PyStr.split " "%char 3 line with
    | [_; pkgname; version; _] =>
        if negb (PyStr.startswith "(" version)
        then Some (Raise (AssertionError (parse_error_msg line)))
        else
          let version := PyStr.tail version in
          if String.eqb version ""
          then Some (Raise (AssertionError (parse_error_msg line)))
          else Some (Ok (pkgname, version))
    | _ => Some (Raise ValueError)
    end.

(** The loop, threading the set [deps]. *)
Fixpoint parse_loop (out : list string) (deps : gset dep) : result (gset dep) :=
  match out with
  | [] => Ok deps
  | line :: rest =>
      match parse_line line with
      | None => parse_loop rest deps
      | Some (Raise e) => Raise e
      | Some (Ok d) => parse_loop rest ({[ d ]} ∪ deps)
      end
  end.

(** Python compares tuples lexicographically and strings by code point. *)
Definition str_leb (a b : string) : bool :=
  match String.compare a b with Gt => false | _ => true end.

Definition dep_leb (a b : dep) : bool :=
  match String.compare (fst a) (fst b) with
  | Lt => true
  | Gt => false
  | Eq => str_leb (snd a) (snd b)
  end.

Definition dep_le (a b : dep) : Prop := dep_leb a b = true.

#[global] Instance dep_le_dec a b : Decision (dep_le a b).
Proof. unfold dep_le. apply _. Defined.

(** [sorted(l)] on a list of pairs of strings. *)
Definition sorted (l : list dep) : list dep := merge_sort dep_le l.

(** [sorted(deps)] on the set: the order in which Python iterates over a
    set is unspecified; [elements] stands for it. *)
Definition sorted_set (deps : gset dep) : list dep := sorted (elements deps).

Definition _parse_build_deps (out : list string) : result (list dep) :=
  match parse_loop out ∅ with
  | Ok deps => Ok (sorted_set deps)
  | Raise e => Raise e
  end.

Example parse_ex1 :
  _parse_build_deps
    ["Reading package lists..."; "Inst foo (1.2-3 Debian:unstable [amd64]) []";
     "Inst bar (2.0 Debian:unstable [amd64])"; "Inst foo (1.2-3 Debian:unstable [amd64]) []";
     "Conf foo (1.2-3 Debian:unstable [amd64])"]
  = Ok [("bar", "2.0"); ("foo", "1.2-3")].
Proof. vm_compute. reflexivity. Qed.

(** [str(sorted(deps)).encode()] hashed, and the first ten hex digits kept. *)
Definition fingerprint (deps : list dep) : string :=
  String.substring 0 10 (Sha224.hexdigest (PyRepr.repr_deps (sorted deps))).

(** The part of [extract_build_dependencies] after the tool has run. *)
Definition fingerprint_of_output (out : list string) : result (list dep * string) :=
  match _parse_build_deps out with
  | Ok deps => Ok (deps, fingerprint deps)
  | Raise e => Raise e
  end.

Example fingerprint_ex1 :
  fingerprint [("bar", "2.0"); ("foo", "1.2-3")] = "897fafa5a7".
Proof. vm_compute. reflexivity. Qed.

Example fingerprint_ex2 : fingerprint [] = "23f497f643".
Proof. vm_compute. reflexivity. Qed.

(** ** Paths and command lines *)

(** [p / c] on [pathlib.Path], for a relative component. *)
Definition path_join (p c : string) : string := p ++ "/" ++ c.
Infix "</>" := path_join (at level 34, left associativity).

(** The directories [os.makedirs(p)] creates on the way to [p]: the proper
    prefixes of [p] that end before a slash. *)
Fixpoint parents_from (acc s : string) : list string :=
  match s with
  | EmptyString => []
  | String c r =>
      if Ascii.eqb c "/"%char
      then (if String.eqb acc "" then [] else [acc]) ++ parents_from (acc ++ "/") r
      else parents_from (acc ++ String c "") r
  end.

Definition parents (p : string) : list string := parents_from "" p.

Example parents_ex :
  parents "/var/cache/conbuilder/l1/sid"
  = ["/var"; "/var/cache"; "/var/cache/conbuilder"; "/var/cache/conbuilder/l1"].
Proof. reflexivity. Qed.

(** [str.format] for templates whose only fields are [{}]. *)
Fixpoint format (template : string) (args : list string) : string :=
  match template with
  | String "{" (String "}" r) =>
      match args with
      | a :: args' => a ++ format r args'
      | [] => format r []
      end
  | String c r => String c (format r args)
  | EmptyString => EmptyString
  end.

Example format_ex : format "sudo umount {}" ["/c/l2/overlay_mount/ab"] = "sudo umount /c/l2/overlay_mount/ab".
Proof. reflexivity. Qed.

Definition mount_cmd (lower upper work mnt : string) : string :=
  format "sudo mount -t overlay overlay -olowerdir={},upperdir={},workdir={} {}"
         [lower; upper; work; mnt].

Definition umount_cmd (path : string) : string := format "sudo umount {}" [path].

Definition nspawn_cmd (rcmd drop_capability system_call_filter : string) : string :=
  let cmd := "sudo systemd-nspawn -M conbuilder --chdir=/srv " in
  let cmd := if String.eqb drop_capability "" then cmd
             else cmd ++ format "--drop-capability={} " [drop_capability] in
  let cmd := if String.eqb system_call_filter "" then cmd
             else cmd ++ format "--system-call-filter={} " [system_call_filter] in
  cmd ++ rcmd.

(** ** Configuration *)

(** The values of the positional argument [action]. *)
Inductive action_t : Type := Create | Update | Build | Install | Purge | Show.

Record conf_t : Type := {
  action : action_t;
  cachedir : string;
  codename : string;
  verbose : Z;
  extra_args : list string;
  export_dir : string;
  drop_capability : string;
  system_call_filter : string
}.

(** ** The world the program runs in *)

(** Transcript of a session: every exchange with the outside. *)
Inductive event : Type :=
| Exec (cmd : string) (returncode : Z)
    (* a command started by [run] ended with this status *)
| Probe (path : string) (found : bool)
    (* [is_file()] or [is_dir()] on content produced by a tool *)
| Mkdir (path : string) (done : bool)
    (* [os.makedirs] / [Path.mkdir]; [false] when it raised *)
| Write (path : string) (data : string) (done : bool)
    (* [open(path, "w")] and [write]; [false] when it raised *)
| Read (path : string) (done : bool).
    (* [open(path)] and the lines read; [false] when it raised *)

Record environment : Type := {
  (* [Popen(cmd, shell=True)]: exit status, the lines of stdout as
     [readline] returns them, and the text of stderr *)
  popen_env : list event -> string -> Z * list string * string;
  is_file_env : list event -> string -> bool;
  is_dir_env : list event -> string -> bool;
  (* whether the process may create or write this path *)
  writable_env : list event -> string -> bool;
  (* the lines of a file, each with its line end, if it can be read *)
  read_env : list event -> string -> option (list string);
  (* [os.path.abspath], which depends on the current directory *)
  abspath_env : string -> string
}.

Inductive severity : Type := Info | Error.

(** [dirs] and [files] hold what the program itself knows of the cache:
    the directories and files there at the start and those it makes and
    writes with [mkdir] and [open].  What the commands it starts do on
    the disk is not recorded in them; about the commands, the transcript
    says which were run, with which command line and status. *)
Record world : Type := {
  dirs : gset string;           (* directories that exist *)
  files : gmap string string;   (* files written by the program or present at start *)
  trace : list event;
  console : list (severity * string)
}.

Definition M (A : Type) : Type := world -> result A * world.

#[global] Instance M_ret : MRet M := fun A a w => (Ok a, w).

#[global] Instance M_bind : MBind M := fun A B f m w =>
  match m w with
  | (Ok a, w') => f a w'
  | (Raise e, w') => (Raise e, w')
  end.

Definition raise {A} (e : exn) : M A := fun w => (Raise e, w).

(** [try: body finally: fin].  An exception raised by [fin] replaces the
    outcome of [body]. *)
Definition try_finally {A} (body : M A) (fin : M unit) : M A := fun w =>
  let '(r, w1) := body w in
  match fin w1 with
  | (Ok _, w2) => (r, w2)
  | (Raise e, w2) => (Raise e, w2)
  end.

Definition log (e : event) (w : world) : world :=
  {| dirs := dirs w; files := files w; trace := trace w ++ [e]; console := console w |}.

(** The directory [p] and the missing directories above it come to exist. *)
Definition add_dir (p : string) (w : world) : world :=
  {| dirs := {[ p ]} ∪ list_to_set (parents p) ∪ dirs w; files := files w;
     trace := trace w; console := console w |}.

(** The file [p] holds [data]. *)
Definition put_file (p data : string) (w : world) : world :=
  {| dirs := dirs w; files := <[ p := data ]> (files w);
     trace := trace w; console := console w |}.

(** The arguments given to [info] and [error]: texts, and in some calls a
    [pathlib.Path]. *)
Inductive pyval : Type :=
| Str (s : string)
| PathV (p : string).

(** [" ".join(a)]: [str.join] takes texts only, and raises [TypeError] on
    any other item. *)
Fixpoint texts (a : list pyval) : option (list string) :=
  match a with
  | [] => Some []
  | Str s :: r => match texts r with Some l => Some (s :: l) | None => None end
  | PathV _ :: _ => None
  end.

Definition join_args (a : list pyval) : result string :=
  match texts a with
  | Some l => Ok (PyStr.join " " l)
  | None => Raise TypeError
  end.

Definition say (sev : severity) (s : string) (w : world) : world :=
  {| dirs := dirs w; files := files w; trace := trace w; console := console w ++ [(sev, s)] |}.

Definition print (sev : severity) (a : list pyval) : M unit := fun w =>
  match join_args a with
  | Ok s => (Ok (), say sev s w)
  | Raise e => (Raise e, w)
  end.

(** [info] and [error]: the arguments joined by spaces, printed. *)
Definition info (a : list pyval) : M unit := print Info a.
Definition error (a : list pyval) : M unit := print Error a.

Definition py_assert (b : bool) (msg : string) : M unit :=
  if b then mret () else raise (AssertionError msg).

(** [for x in l: f(x)] *)
Fixpoint for_each {A} (l : list A) (f : A -> M unit) : M unit :=
  match l with
  | [] => mret ()
  | x :: r => f x ;; for_each r f
  end.

(** ** The program *)

Section Program.

Variable env : environment.

(** *** Effects *)

(** [Popen(cmd, shell=True, ...)] up to [proc.wait()]: the event tells
    that the command was started and the status it ends with. *)
Definition popen (cmd : string) : M (Z * list string * string) := fun w =>
  let '(rc, raw, err) := popen_env env (trace w) cmd in
  (Ok (rc, raw, err), log (Exec cmd rc) w).

(** [p.exists()] / [os.path.exists(p)] on a layer directory. *)
Definition path_exists (p : string) : M bool := fun w =>
  (Ok (bool_decide (p ∈ dirs w)), w).

Definition is_file (p : string) : M bool := fun w =>
  let b := is_file_env env (trace w) p in (Ok b, log (Probe p b) w).

Definition is_dir (p : string) : M bool := fun w =>
  let b := is_dir_env env (trace w) p in (Ok b, log (Probe p b) w).

(** [os.makedirs(p)] and [p.mkdir(parents=True)]; with [exist_ok] it is
    [p.mkdir(parents=True, exist_ok=True)]. *)
Definition makedirs (p : string) (exist_ok : bool) : M unit := fun w =>
  if bool_decide (p ∈ dirs w) then
    if exist_ok then (Ok (), w) else (Raise (OSError p), log (Mkdir p false) w)
  else if writable_env env (trace w) p then (Ok (), log (Mkdir p true) (add_dir p w))
  else (Raise (OSError p), log (Mkdir p false) w).

(** [with p.open("w") as f: f.write(data)] *)
Definition write_text (p data : string) : M unit := fun w =>
  if writable_env env (trace w) p then (Ok (), log (Write p data true) (put_file p data w))
  else (Raise (OSError p), log (Write p data false) w).

(** [with p.open() as f] and the lines [for line in f] yields. *)
Definition read_lines (p : string) : M (list string) := fun w =>
  match read_env env (trace w) p with
  | Some lines => (Ok lines, log (Read p true) w)
  | None => (Raise (OSError p), log (Read p false) w)
  end.

(** The name of [p] when [p] is an entry of the directory [d]. *)
Definition entry_name (d p : string) : option string :=
  if String.prefix (d ++ "/") p then
    let n := String.substring (String.length d + 1) (String.length p - String.length d - 1) p in
    if (String.eqb n "" || PyRepr.contains "/"%char n)%bool then None else Some n
  else None.

(** [d.iterdir()] on a directory of layers: its entries, in no particular
    order. *)
Definition iterdir (d : string) : M (list string) := fun w =>
  (Ok (filter (fun p => is_Some (entry_name d p)) (elements (dirs w))), w).

(** *** [run], [mount], [umount], [nspawn] *)

(** [b.decode()] *)
Definition decode (b : string) : M string :=
  if Utf8.valid b then mret b else raise UnicodeDecodeError.

(** The loop of [run] over the lines of stdout: it ends at the first empty
    read; each line read is stripped, then decoded. *)
Fixpoint read_loop (raw : list string) (quiet : bool) (out : list string) : M (list string) :=
  match raw with
  | [] => mret out
  | line :: rest =>
      if String.eqb line "" then mret out
      else
        line ← decode (PyStr.rstrip line);
        let out := (out ++ [line])%list in
        (if quiet then mret () else info [Str line]) ;;
        read_loop rest quiet out
  end.

Definition run (cmd : string) (quietcmd quiet : bool) : M (list string) :=
  (if quietcmd then mret () else info [Str cmd]) ;;
  '(rc, raw, err) ← popen cmd;
  out ← read_loop raw quiet [];
  if negb (rc =? 0) then
    error [Str "-- Error --"] ;;
    err ← decode err;
    error [Str err] ;;
    error [Str "-----------"] ;;
    raise (CommandError cmd rc)
  else mret out.

Definition mount (lower upper work mnt : string) : M unit :=
  let cmd := mount_cmd lower upper work mnt in
  run cmd false false ;;
  b ← is_file (mnt </> "usr/bin/apt");
  py_assert b "".

Definition umount (path : string) : M unit :=
  run (umount_cmd path) false false ;; mret ().

Definition nspawn (rcmd : string) (quiet : bool) (drop_capability system_call_filter : string)
  : M (list string) :=
  run (nspawn_cmd rcmd drop_capability system_call_filter) false quiet.

(** *** [extract_build_dependencies] *)

Definition extract_cmd (l1dir : string) : string :=
  let cmd := "-D " ++ l1dir ++ " --read-only " in
  cmd ++ "--overlay=$(pwd)::/srv  -- /usr/bin/apt-get build-dep -s .".

Definition extract_build_dependencies (l1dir : string) : M (list dep * string) :=
  out ← nspawn (extract_cmd l1dir) true "" "";
  match fingerprint_of_output out with
  | Ok r => mret r
  | Raise e => raise e
  end.

(** *** [create_l1], [update_l1], [create_l2] *)

Definition debootstrap_cmd (codename l1dir : string) : string :=
  format "sudo debootstrap --include=apt  --force-check-gpg {} {} http://deb.debian.org/debian"
         [codename; l1dir].

Definition create_l1 (conf : conf_t) (l1dir : string) : M unit :=
  ex ← path_exists l1dir;
  if (ex : bool) then
    error [Str "Error: the base filesystem (L1) already exists"] ;;
    raise (SystemExit 1)
  else
    info [Str "Creating"; PathV l1dir] ;;
    makedirs l1dir false ;;
    run (debootstrap_cmd (codename conf) l1dir) false false ;;
    b ← is_file (l1dir </> "usr/bin/apt");
    py_assert b "" ;;
    b ← is_dir (l1dir </> "etc");
    py_assert b (format "/etc not found in {} " [l1dir]).

Definition update_l1 (conf : conf_t) (l1dir : string) : M unit :=
  info [Str ("Updating " ++ l1dir)] ;;
  nspawn (format "-D {} -- /usr/bin/apt-get -y update" [l1dir]) false "" "" ;;
  nspawn (format "-D {} -E DEBIAN_FRONTEND=noninteractive -- /usr/bin/apt-get -y dist-upgrade"
                 [l1dir]) false "" "" ;;
  mret ().

Definition install_deps_cmd (l2mountdir : string) : string :=
  format "-D {} -E DEBIAN_FRONTEND=noninteractive --overlay=$(pwd)::/srv  -- /usr/bin/apt-get build-dep -y ."
         [l2mountdir].

Definition manifest_name : string := ".deps.conbuilder".

Definition newline : string := String (ascii_of_nat 10) "".

(** [create_l2], from [os.makedirs(l2dir)] on. *)
Definition create_l2_layer (conf : conf_t) (l1dir l2dir l2workdir l2mountdir : string)
    (expected_deps : list dep) : M unit :=
  makedirs l2dir false ;;
  makedirs l2workdir false ;;
  makedirs l2mountdir false ;;
  try_finally
    (mount l1dir l2dir l2workdir l2mountdir ;;
     let deps_list := map (fun '(name, ver) => format "{}:{}" [name; ver]) expected_deps in
     info [Str "[L2] Installing dependencies..."] ;;
     (if verbose conf =? 0 then info [Str "[L2]"; Str (PyStr.join " " deps_list)] else mret ()) ;;
     let cmd := install_deps_cmd l2mountdir in
     out ← nspawn cmd (verbose conf =? 0) "" "";
     match _parse_build_deps out return M unit with
     | Raise e => raise e
     | Ok _ =>
         (* assigned, neither formatted nor run *)
         let cmd := "-D {} --overlay=$(pwd)::/srv  -- /usr/bin/apt-get clean" in
         write_text (l2mountdir </> manifest_name) (PyStr.join newline deps_list)
     end)
    (umount l2mountdir).

(** [l2dir] is a [Path]: the first statement hands it to [info]. *)
Definition create_l2 (conf : conf_t) (l1dir l2dir l2workdir l2mountdir : string)
    (expected_deps : list dep) : M unit :=
  info [Str "[L2] Creating"; PathV l2dir] ;;
  create_l2_layer conf l1dir l2dir l2workdir l2mountdir expected_deps.

(** *** [build] *)

Definition l1dir_of (conf : conf_t) : string := cachedir conf </> "l1" </> codename conf.

(** The three directories of a layer of tier [tier] ("l2", "l3", "l2i"). *)
Definition fs_dir (conf : conf_t) (tier id : string) : string :=
  cachedir conf </> tier </> "fs" </> id.
Definition work_dir (conf : conf_t) (tier id : string) : string :=
  cachedir conf </> tier </> "overlay_work" </> id.
Definition mount_dir (conf : conf_t) (tier id : string) : string :=
  cachedir conf </> tier </> "overlay_mount" </> id.

Definition exts : list string := ["deb"; "changes"; "xz"; "gz"; "buildinfo"; "dsc"].

Definition copy_source_cmd (l3mountdir : string) : string :=
  format "sudo cp -a . {}" [l3mountdir </> "srv"].

Definition buildpackage_cmd (l3mountdir : string) (extra_args : list string) : string :=
  format "--private-network -D {} -- /usr/bin/dpkg-buildpackage {}"
         [l3mountdir; PyStr.join " " extra_args].

Definition export_cmd (l3dir e dest : string) : string :=
  format "cp -a {}/*.{} {}/ || true" [l3dir; e; dest].

(** [build], first part: the base system and the fingerprint. *)
Definition build_fingerprint (conf : conf_t) : M (list dep * string) :=
  let l1dir := l1dir_of conf in
  ex ← path_exists l1dir;
  (if negb ex then create_l1 conf l1dir else mret ()) ;;
  extract_build_dependencies l1dir.

(** [build], the two nested [try] blocks on L3; the value is [success]. *)
Definition build_l3 (conf : conf_t) (dep_hash : string) : M bool :=
  let l2mountdir := mount_dir conf "l2" dep_hash in
  let l3dir := fs_dir conf "l3" dep_hash in
  let l3workdir := work_dir conf "l3" dep_hash in
  let l3mountdir := mount_dir conf "l3" dep_hash in
  ex ← path_exists l3dir;
  (if negb ex then
     info [Str "[L3] Creating"; PathV l3dir] ;;
     makedirs l3dir false ;;
     makedirs l3workdir false ;;
     makedirs l3mountdir false
   else mret ()) ;;
  try_finally
    (mount l2mountdir l3dir l3workdir l3mountdir ;;
     run (copy_source_cmd l3mountdir) false false ;;
     nspawn (buildpackage_cmd l3mountdir (extra_args conf)) false
            (drop_capability conf) (system_call_filter conf) ;;
     mret true)
    (umount l3mountdir).

(** [build], from the L2 paths to the end of the outer [try]. *)
Definition build_layers (conf : conf_t) (deps : list dep) (dep_hash : string) : M bool :=
  let l1dir := l1dir_of conf in
  let l2dir := fs_dir conf "l2" dep_hash in
  let l2workdir := work_dir conf "l2" dep_hash in
  let l2mountdir := mount_dir conf "l2" dep_hash in
  info [Str "[L1] Ready"] ;;
  ex ← path_exists l2dir;
  (if negb ex then create_l2 conf l1dir l2dir l2workdir l2mountdir deps else mret ()) ;;
  try_finally
    (mount l1dir l2dir l2workdir l2mountdir ;;
     info [Str "[L2] Ready"] ;;
     build_l3 conf dep_hash)
    (umount l2mountdir).

(** [build], after the [try] blocks. *)
Definition build_export (conf : conf_t) (dep_hash : string) (success : bool) : M unit :=
  let l3dir := fs_dir conf "l3" dep_hash in
  if negb success then mret ()
  else if negb (String.eqb (export_dir conf) "") then
    let dest := abspath_env env (export_dir conf) in
    for_each exts (fun e => run (export_cmd l3dir e dest) false false ;; mret ()) ;;
    info [Str (newline ++ "[Success]")]
  else info [Str (format (newline ++ "[Success] Output is at {}") [l3dir])].

Definition build (conf : conf_t) : M unit :=
  '(deps, dep_hash) ← build_fingerprint conf;
  success ← build_layers conf deps dep_hash;
  build_export conf dep_hash success.

(** *** [install] *)

(** [install], from the loop over the three directories on. *)
Definition install_layer (conf : conf_t) : M unit :=
  let l1dir := l1dir_of conf in
  let dep_hash := "foo" in
  let l2dir := fs_dir conf "l2i" dep_hash in
  let l2workdir := work_dir conf "l2i" dep_hash in
  let l2mountdir := mount_dir conf "l2i" dep_hash in
  for_each [l2dir; l2workdir; l2mountdir] (fun d => makedirs d true) ;;
  try_finally
    (mount l1dir l2dir l2workdir l2mountdir ;;
     info [Str "[L2] Ready"] ;;
     let deb_fnames := extra_args conf in
     for_each deb_fnames (fun fn =>
       let cmd := format "sudo cp -a {} {}/srv/" [fn; l2mountdir] in
       run cmd false false ;; mret ()) ;;
     let cmd := "-D {} -- /usr/bin/apt install -y /srv/safeeyes_2.0.0-2_all.deb" in
     let cmd := "-D {} -- /bin/bash" in
     let cmd := format cmd [l2mountdir] in
     nspawn cmd false "" "" ;;
     mret ())
    (umount l2mountdir).

(** [l2dir] is a [Path] here too. *)
Definition install (conf : conf_t) : M unit :=
  let l1dir := l1dir_of conf in
  ex ← path_exists l1dir;
  (if negb ex then create_l1 conf l1dir else mret ()) ;;
  info [Str "[L2i] Creating"; PathV (fs_dir conf "l2i" "foo")] ;;
  install_layer conf.

(** *** [show] *)

(** ["{:35}".format(s)] *)
Definition ljust35 (s : string) : string :=
  s ++ string_of_list_ascii (repeat " "%char (35 - String.length s)).

Definition tab : ascii := ascii_of_nat 9.

Definition show (conf : conf_t) : M unit :=
  info [Str "Mounted overlays:"] ;;
  run "mount | grep ^overlay | cat" true false ;;
  info [Str "Running containers:"] ;;
  run "machinectl list | grep conbuilder | cat" true false ;;
  info [Str "Layers:"] ;;
  for_each [("L1", "l1"); ("L2", "l2/fs"); ("L3", "l3/fs")] (fun '(nick, path) =>
    info [Str (format "  {}:" [nick])] ;;
    let d := cachedir conf </> path in
    ex ← path_exists d;
    if negb ex then mret ()
    else
      items ← iterdir d;
      for_each items (fun item =>
        size ← run (format "sudo du -hs {}" [item]) true true;
        match size return M unit with
        | [] => raise IndexError
        | s0 :: _ =>
            let size := match PyStr.break tab s0 with Some (a, _) => a | None => s0 end in
            let name := default item (entry_name d item) in
            info [Str ("    " ++ ljust35 name ++ " " ++ size)] ;;
            let deps_fn := item </> manifest_name in
            b ← is_file deps_fn;
            if negb b then mret ()
            else
              lines ← read_lines deps_fn;
              for_each lines (fun line => info [Str "     "; Str (PyStr.rstrip line)]) ;;
              info [Str ""]
        end) ;;
      info [Str ""]).

(** *** [main], after the configuration is loaded *)

Definition main (conf : conf_t) : M unit :=
  match action conf with
  | Create => create_l1 conf (l1dir_of conf)
  | Update => update_l1 conf (l1dir_of conf)
  | Build => build conf
  | Install => install conf
  | Purge => raise NotImplementedError
  | Show => show conf
  end.

End Program.

(** * Properties *)

(** ** The parser and the fingerprint *)

Section Parser.

(** What a line contributes to [deps], and whether it parses. *)
Definition parsed_of (line : string) : gset dep :=
  match parse_line line with
  | Some (Ok d) => {[ d ]}
  | _ => ∅
  end.

Definition line_ok (line : string) : bool :=
  match parse_line line with
  | Some (Raise _) => false
  | _ => true
  end.

Lemma parse_loop_ok out : forall deps,
  forallb line_ok out = true ->
  parse_loop out deps = Ok (⋃ (parsed_of <$> out) ∪ deps).
Proof.
  induction out as [|line rest IH]; intros deps Hall; simpl in *.
  - f_equal. set_solver.
  - apply andb_prop in Hall as [Hl Hr].
    unfold line_ok, parsed_of in *.
    destruct (parse_line line) as [[d|e]|]; try discriminate.
    + rewrite IH by assumption. f_equal. set_solver.
    + rewrite IH by assumption. f_equal. set_solver.
Qed.

Lemma parse_loop_raise out : forall deps,
  forallb line_ok out = false ->
  exists e, parse_loop out deps = Raise e.
Proof.
  induction out as [|line rest IH]; intros deps Hall; simpl in *; [discriminate|].
  unfold line_ok in Hall at 1.
  destruct (parse_line line) as [[d|e]|]; simpl in Hall; eauto.
Qed.

Lemma forallb_line_ok_perm l1 l2 :
  l1 ≡ₚ l2 -> forallb line_ok l1 = forallb line_ok l2.
Proof.
  induction 1; simpl; try congruence.
  destruct (line_ok x), (line_ok y); reflexivity.
Qed.

Lemma parsed_union_perm l1 l2 :
  l1 ≡ₚ l2 -> ⋃ (parsed_of <$> l1) = ⋃ (parsed_of <$> l2).
Proof.
  induction 1 as [|x l l' _ IH|x y l|l l' l'' _ IH1 _ IH2]; csimpl.
  - reflexivity.
  - rewrite IH. reflexivity.
  - apply set_eq. set_solver.
  - congruence.
Qed.

Lemma parse_build_deps_perm l1 l2 :
  l1 ≡ₚ l2 ->
  match _parse_build_deps l1, _parse_build_deps l2 with
  | Ok d1, Ok d2 => d1 = d2
  | Raise _, Raise _ => True
  | _, _ => False
  end.
Proof.
  intros Hp. unfold _parse_build_deps.
  destruct (forallb line_ok l1) eqn:E1.
  - rewrite (parse_loop_ok l1) by assumption.
    rewrite (forallb_line_ok_perm _ _ Hp) in E1.
    rewrite (parse_loop_ok l2) by assumption.
    rewrite (parsed_union_perm _ _ Hp). reflexivity.
  - destruct (parse_loop_raise l1 ∅ E1) as [e1 ->].
    rewrite (forallb_line_ok_perm _ _ Hp) in E1.
    destruct (parse_loop_raise l2 ∅ E1) as [e2 ->]. exact I.
Qed.

End Parser.

(** C3. The parse contract: the sample line gives the pair
    [("foo", "1.2-3")]; a line whose version field has no opening
    parenthesis raises [AssertionError] (the parse failure); and a line
    that does not start with the prefix ["Inst "] contributes nothing,
    wherever it stands in the output. *)
Theorem parse_contract :
  _parse_build_deps ["Inst foo (1.2-3 Debian:unstable [amd64]) []"] = Ok [("foo", "1.2-3")]
  /\ _parse_build_deps ["Inst foo 1.2-3 ..."]
     = Raise (AssertionError "Cannot parse version from 'Inst foo 1.2-3 ...'")
  /\ forall (before after : list string) (line : string),
       PyStr.startswith "Inst " line = false ->
       parse_line line = None
       /\ _parse_build_deps (before ++ line :: after) = _parse_build_deps (before ++ after).
Proof.
  split; [vm_compute; reflexivity|].
  split; [vm_compute; reflexivity|].
  intros before after line Hline.
  assert (Hnone : parse_line line = None).
  { unfold parse_line, Inst_prefix. rewrite Hline. reflexivity. }
  split; [exact Hnone|].
  unfold _parse_build_deps.
  assert (Hloop : forall deps,
    parse_loop (before ++ line :: after) deps = parse_loop (before ++ after) deps).
  { induction before as [|b rest IH]; intros deps; simpl.
    - rewrite Hnone. reflexivity.
    - destruct (parse_line b) as [[d|e]|]; auto. }
  rewrite Hloop. reflexivity.
Qed.

Lemma parse_contract_witness :
  PyStr.startswith "Inst " "Conf foo (1.2-3 Debian:unstable [amd64])" = false
  /\ parse_line "Conf foo (1.2-3 Debian:unstable [amd64])" = None
  /\ _parse_build_deps
       (["Inst foo (1.2-3 Debian:unstable [amd64]) []"]
        ++ "Conf foo (1.2-3 Debian:unstable [amd64])" :: ["Inst bar (2.0 Debian:unstable [amd64])"])
     = _parse_build_deps
       (["Inst foo (1.2-3 Debian:unstable [amd64]) []"]
        ++ ["Inst bar (2.0 Debian:unstable [amd64])"]).
Proof.
  split; [reflexivity|].
  apply (proj2 (proj2 parse_contract)
           ["Inst foo (1.2-3 Debian:unstable [amd64]) []"]
           ["Inst bar (2.0 Debian:unstable [amd64])"]
           "Conf foo (1.2-3 Debian:unstable [amd64])").
  reflexivity.
Defined.

(** C2. The fingerprint does not depend on the order of the lines of the
    tool's output: two outputs that are permutations of each other either
    both parse, to the same sorted dependency list and the same
    fingerprint, or both fail to parse. *)
Theorem fingerprint_order_invariant (l1 l2 : list string) :
  l1 ≡ₚ l2 ->
  (forall r, fingerprint_of_output l1 = Ok r -> fingerprint_of_output l2 = Ok r)
  /\ is_ok (fingerprint_of_output l1) = is_ok (fingerprint_of_output l2).
Proof.
  intros Hp. pose proof (parse_build_deps_perm l1 l2 Hp) as H.
  unfold fingerprint_of_output.
  destruct (_parse_build_deps l1) as [d1|e1], (_parse_build_deps l2) as [d2|e2];
    try contradiction; subst; split; simpl; try reflexivity; try (intros r Hr; exact Hr).
  intros r Hr. discriminate.
Qed.

Lemma fingerprint_order_invariant_witness :
  fingerprint_of_output
    ["Inst libbar (2.0 Debian:unstable [amd64])"; "Reading package lists...";
     "Inst libfoo (1.0 Debian:unstable [amd64])"]
  = Ok ([("libbar", "2.0"); ("libfoo", "1.0")], "284ba56263").
Proof.
  apply (proj1 (fingerprint_order_invariant
    ["Inst libfoo (1.0 Debian:unstable [amd64])"; "Inst libbar (2.0 Debian:unstable [amd64])";
     "Reading package lists..."]
    ["Inst libbar (2.0 Debian:unstable [amd64])"; "Reading package lists..."; 
     "Inst libfoo (1.0 Debian:unstable [amd64])"]
    ltac:(etrans; [apply perm_swap | apply perm_skip, perm_swap]))).
  vm_compute. reflexivity.
Defined.

(** ** Sessions: what a call adds to the transcript *)

Open Scope list_scope.

(** The events between two worlds of one session. *)
Definition session_events (w w' : world) : list event :=
  drop (List.length (trace w)) (trace w').

(** Properties of the world that no effect of the program undoes. *)
Class Invariant (I : world -> Prop) : Prop := {
  inv_console : forall c w,
    I w -> I {| dirs := dirs w; files := files w; trace := trace w; console := c |};
  inv_log : forall e w, I w -> I (log e w);
  inv_add_dir : forall p w, I w -> I (add_dir p w);
  inv_put_file : forall p data w, I w -> I (put_file p data w)
}.

Definition any_world : world -> Prop := fun _ => True.

#[global] Instance any_world_invariant : Invariant any_world.
Proof. split; intros; exact I. Qed.

(** The directory [p] exists. *)
Definition has_dir (p : string) : world -> Prop := fun w => p ∈ dirs w.

#[global] Instance has_dir_invariant p : Invariant (has_dir p).
Proof.
  split; unfold has_dir; simpl; intros; try assumption.
  apply elem_of_union_r. assumption.
Qed.

(** Started in a world where [I] holds, [m] only appends to the
    transcript, what it appends satisfies [P], and [I] still holds,
    whatever the outcome. *)
Definition emits {A} (I : world -> Prop) (m : M A) (P : list event -> Prop) : Prop :=
  forall w, I w -> exists d, trace (m w).2 = trace w ++ d /\ P d /\ I (m w).2.

(** Predicates on transcripts that hold of the empty one and of
    concatenations. *)
Class Monoidal (P : list event -> Prop) : Prop := {
  monoidal_nil : P [];
  monoidal_app : forall d1 d2, P d1 -> P d2 -> P (d1 ++ d2)
}.

#[global] Instance Forall_monoidal (Q : event -> Prop) : Monoidal (Forall Q).
Proof. split; [constructor | intros d1 d2 H1 H2; apply Forall_app; auto]. Qed.

(** No constraint on the transcript. *)
Definition anything (d : list event) : Prop := True.

#[global] Instance anything_monoidal : Monoidal anything.
Proof. split; intros; exact I. Qed.

#[global] Instance nil_monoidal : Monoidal (fun d => d = []).
Proof. split; [reflexivity | intros d1 d2 -> ->; reflexivity]. Qed.

Lemma session_events_app w w' d :
  trace w' = trace w ++ d -> session_events w w' = d.
Proof.
  intros H. unfold session_events. rewrite H, drop_app_length. reflexivity.
Qed.

Section Emits.

Context (I : world -> Prop).

Lemma emits_mono {A} (m : M A) (P Q : list event -> Prop) :
  emits I m P -> (forall d, P d -> Q d) -> emits I m Q.
Proof. intros Hm HPQ w Hw. destruct (Hm w Hw) as (d & Hd & HP & HI). eauto. Qed.

Lemma emits_ret {A} (a : A) (P : list event -> Prop) : P [] -> emits I (mret a) P.
Proof. intros HP w Hw. exists []. simpl. rewrite app_nil_r. auto. Qed.

Lemma emits_raise {A} (e : exn) (P : list event -> Prop) : P [] -> emits I (@raise A e) P.
Proof. intros HP w Hw. exists []. simpl. rewrite app_nil_r. auto. Qed.

(** Sequencing: the events of [m], then those of [f] if [m] returned. *)
Lemma emits_bind_gen {A B} (m : M A) (f : A -> M B) (P Q : list event -> Prop) :
  emits I m P -> (forall a, emits I (f a) Q) ->
  emits I (m ≫= f) (fun d => exists d1 d2, d = d1 ++ d2 /\ P d1 /\ (d2 = [] \/ Q d2)).
Proof.
  intros Hm Hf w Hw. unfold mbind, M_bind.
  destruct (Hm w Hw) as (d1 & Hd1 & HP & HI).
  destruct (m w) as [[a|e] w1]; simpl in *.
  - destruct (Hf a w1 HI) as (d2 & Hd2 & HQ & HI2).
    exists (d1 ++ d2). rewrite Hd2, Hd1, app_assoc. split; [reflexivity|].
    split; [|assumption]. exists d1, d2. auto.
  - exists d1. split; [assumption|]. split; [|assumption].
    exists d1, []. rewrite app_nil_r. auto.
Qed.

Lemma emits_bind {A B} (m : M A) (f : A -> M B) (P : list event -> Prop) `{!Monoidal P} :
  emits I m P -> (forall a, emits I (f a) P) -> emits I (m ≫= f) P.
Proof.
  intros Hm Hf. eapply emits_mono; [apply (emits_bind_gen m f P P Hm Hf)|].
  intros d (d1 & d2 & -> & H1 & [-> | H2]).
  - rewrite app_nil_r. assumption.
  - apply monoidal_app; assumption.
Qed.

(** [try ... finally]: the events of the body, then those of the handler,
    always. *)
Lemma emits_finally_gen {A} (body : M A) (fin : M unit) (P Q : list event -> Prop) :
  emits I body P -> emits I fin Q ->
  emits I (try_finally body fin) (fun d => exists d1 d2, d = d1 ++ d2 /\ P d1 /\ Q d2).
Proof.
  intros Hb Hf w Hw. unfold try_finally.
  destruct (Hb w Hw) as (d1 & Hd1 & HP & HI).
  destruct (body w) as [r w1]; simpl in *.
  destruct (Hf w1 HI) as (d2 & Hd2 & HQ & HI2).
  exists (d1 ++ d2).
  destruct (fin w1) as [[[]|e] w2]; simpl in *;
    (split; [rewrite Hd2, Hd1, app_assoc; reflexivity | split; [exists d1, d2; auto | assumption]]).
Qed.

Lemma emits_finally {A} (body : M A) (fin : M unit) (P : list event -> Prop) `{!Monoidal P} :
  emits I body P -> emits I fin P -> emits I (try_finally body fin) P.
Proof.
  intros Hb Hf. eapply emits_mono; [apply (emits_finally_gen body fin P P Hb Hf)|].
  intros d (d1 & d2 & -> & H1 & H2). apply monoidal_app; assumption.
Qed.

Lemma emits_for_each {A} (l : list A) (f : A -> M unit) (P : list event -> Prop)
    `{!Monoidal P} :
  (forall x, emits I (f x) P) -> emits I (for_each l f) P.
Proof.
  intros Hf. induction l as [|x r IH]; simpl.
  - apply emits_ret, monoidal_nil.
  - apply emits_bind; [assumption | apply Hf | intros _; exact IH].
Qed.

(** A test for a directory that [I] says exists takes the branch of
    [true]. *)
Lemma emits_exists_known {A} p (f : bool -> M A) (P : list event -> Prop) :
  (forall w, I w -> p ∈ dirs w) ->
  emits I (f true) P -> emits I (path_exists p ≫= f) P.
Proof.
  intros Hp Hf w Hw. unfold mbind, M_bind, path_exists.
  rewrite bool_decide_eq_true_2 by auto. apply Hf. assumption.
Qed.

Lemma emits_ret_then {A B} (a : A) (f : A -> M B) (P : list event -> Prop) :
  emits I (f a) P -> emits I (mret a ≫= f) P.
Proof. intros Hf w Hw. apply Hf. assumption. Qed.

(** *** The effects, one by one *)

Context `{!Invariant I}.

Lemma inv_say sev s w : I w -> I (say sev s w).
Proof. apply inv_console. Qed.

(** A [print] with a [Path] among its arguments raises: what follows it
    is not run. *)
Lemma emits_print_raises {A} sev a (m : M A) (P : list event -> Prop) :
  texts a = None -> P [] -> emits I (print sev a ;; m) P.
Proof.
  intros Ha HP w Hw. unfold mbind, M_bind, print, join_args. rewrite Ha. simpl.
  exists []. rewrite app_nil_r. auto.
Qed.

(** A [print] of texts returns, and adds nothing to the transcript. *)
Lemma emits_print_then {A} sev a l (m : M A) (P : list event -> Prop) :
  texts a = Some l -> emits I m P -> emits I (print sev a ;; m) P.
Proof.
  intros Ha Hm w Hw. unfold mbind, M_bind, print, join_args. rewrite Ha.
  apply (Hm (say sev (PyStr.join " " l) w)). apply inv_console. assumption.
Qed.

Variable env : environment.

Lemma print_emits sev a : emits I (print sev a) (fun d => d = []).
Proof.
  intros w Hw. exists []. unfold print.
  destruct (join_args a); simpl; rewrite app_nil_r;
    (split; [reflexivity|]; split; [reflexivity|]); [apply inv_console|]; assumption.
Qed.

Lemma path_exists_emits p : emits I (path_exists p) (fun d => d = []).
Proof. intros w Hw. exists []. simpl. rewrite app_nil_r. auto. Qed.

Lemma py_assert_emits b msg : emits I (py_assert b msg) (fun d => d = []).
Proof. intros w Hw. exists []. destruct b; simpl; rewrite app_nil_r; auto. Qed.

Lemma iterdir_emits p : emits I (iterdir p) (fun d => d = []).
Proof. intros w Hw. exists []. simpl. rewrite app_nil_r. auto. Qed.

Lemma popen_emits cmd : emits I (popen env cmd) (fun d => exists rc, d = [Exec cmd rc]).
Proof.
  intros w Hw. unfold popen.
  destruct (popen_env env (trace w) cmd) as [[rc raw] err]. simpl.
  exists [Exec cmd rc]. split; [reflexivity|]. split; [eauto | apply inv_log; assumption].
Qed.

Lemma is_file_emits p : emits I (is_file env p) (fun d => exists b, d = [Probe p b]).
Proof.
  intros w Hw. simpl. eexists. split; [reflexivity|]. split; [eauto | apply inv_log; assumption].
Qed.

Lemma is_dir_emits p : emits I (is_dir env p) (fun d => exists b, d = [Probe p b]).
Proof.
  intros w Hw. simpl. eexists. split; [reflexivity|]. split; [eauto | apply inv_log; assumption].
Qed.

Lemma makedirs_emits p exist_ok :
  emits I (makedirs env p exist_ok) (fun d => d = [] \/ exists b, d = [Mkdir p b]).
Proof.
  intros w Hw. unfold makedirs.
  destruct (bool_decide _); [destruct exist_ok|destruct (writable_env _ _ _)]; simpl.
  - exists []. rewrite app_nil_r. auto.
  - eexists. split; [reflexivity|]. split; [eauto | apply inv_log; assumption].
  - eexists. split; [reflexivity|]. split; [eauto | apply inv_log, inv_add_dir; assumption].
  - eexists. split; [reflexivity|]. split; [eauto | apply inv_log; assumption].
Qed.

Lemma write_text_emits p data :
  emits I (write_text env p data) (fun d => exists b, d = [Write p data b]).
Proof.
  intros w Hw. unfold write_text. destruct (writable_env _ _ _); simpl.
  - eexists. split; [reflexivity|]. split; [eauto | apply inv_log, inv_put_file; assumption].
  - eexists. split; [reflexivity|]. split; [eauto | apply inv_log; assumption].
Qed.

Lemma read_lines_emits p :
  emits I (read_lines env p) (fun d => exists b, d = [Read p b]).
Proof.
  intros w Hw. unfold read_lines. destruct (read_env _ _ _); simpl;
    (eexists; split; [reflexivity|]; split; [eauto | apply inv_log; assumption]).
Qed.

Lemma decode_emits b : emits I (decode b) (fun d => d = []).
Proof.
  unfold decode. destruct (Utf8.valid b); [apply emits_ret | apply emits_raise]; reflexivity.
Qed.

Lemma read_loop_emits raw quiet :
  forall out, emits I (read_loop raw quiet out) (fun d => d = []).
Proof.
  induction raw as [|line rest IH]; intros out; simpl.
  - apply emits_ret. reflexivity.
  - destruct (String.eqb line ""); [apply emits_ret; reflexivity|].
    apply emits_bind; [apply _ | apply decode_emits | intros line'].
    apply emits_bind; [apply _ | | intros _; apply IH].
    destruct quiet; [apply emits_ret; reflexivity | apply print_emits].
Qed.

(** [run] starts exactly one command. *)
Lemma run_emits cmd quietcmd quiet :
  emits I (run env cmd quietcmd quiet) (fun d => exists rc, d = [Exec cmd rc]).
Proof.
  intros w Hw. unfold run, mbind, M_bind.
  assert (H0 : exists w', ((if quietcmd then mret () else info [Str cmd]) : M unit) w = (Ok (), w')
                          /\ trace w' = trace w /\ I w').
  { destruct quietcmd; simpl; eauto.
    eexists. split; [reflexivity|]. split; [reflexivity|].
    apply inv_say. assumption. }
  destruct H0 as (w' & -> & Hw' & HI').
  unfold popen. destruct (popen_env env (trace w') cmd) as [[rc raw] err].
  assert (HIl : I (log (Exec cmd rc) w')) by (apply inv_log; assumption).
  destruct (read_loop_emits raw quiet [] (log (Exec cmd rc) w') HIl) as (d1 & Hd1 & -> & HI1).
  rewrite app_nil_r in Hd1.
  exists [Exec cmd rc]. rewrite <- Hw'.
  destruct (read_loop raw quiet [] (log (Exec cmd rc) w')) as [[out|e] w2]; simpl in *.
  - destruct (negb (rc =? 0)); simpl; [|split; [assumption|]; split; [eauto | assumption]].
    unfold decode. destruct (Utf8.valid err); simpl;
      (split; [assumption|]; split; [eauto|]); repeat apply inv_say; assumption.
  - eauto.
Qed.

Lemma nspawn_emits rcmd quiet dc scf :
  emits I (nspawn env rcmd quiet dc scf)
          (fun d => exists rc, d = [Exec (nspawn_cmd rcmd dc scf) rc]).
Proof. apply run_emits. Qed.

End Emits.

(** A tactic that walks through the code of a function and leaves, for
    each effect, the obligation that the predicate holds of the one event
    it adds; [tac] discharges those. *)
Ltac emits_walk tac :=
  lazymatch goal with
  | |- emits _ (mret _) _ => apply emits_ret, monoidal_nil
  | |- emits _ (raise _) _ => apply emits_raise, monoidal_nil
  | |- emits _ (info (_ :: PathV _ :: _) ≫= _) _ =>
      apply emits_print_raises; [reflexivity | apply monoidal_nil]
  | |- emits _ (_ ≫= _) _ =>
      apply emits_bind; [typeclasses eauto | emits_walk tac | intros ?; emits_walk tac]
  | |- emits _ (try_finally _ _) _ =>
      apply emits_finally; [typeclasses eauto | emits_walk tac | emits_walk tac]
  | |- emits _ (for_each _ _) _ =>
      apply emits_for_each; [typeclasses eauto | intros ?; emits_walk tac]
  | |- emits _ (info _) _ =>
      eapply emits_mono; [apply print_emits; typeclasses eauto | intros ? ->; apply monoidal_nil]
  | |- emits _ (error _) _ =>
      eapply emits_mono; [apply print_emits; typeclasses eauto | intros ? ->; apply monoidal_nil]
  | |- emits _ (path_exists _) _ =>
      eapply emits_mono; [apply path_exists_emits | intros ? ->; apply monoidal_nil]
  | |- emits _ (iterdir _) _ =>
      eapply emits_mono; [apply iterdir_emits | intros ? ->; apply monoidal_nil]
  | |- emits _ (py_assert _ _) _ =>
      eapply emits_mono; [apply py_assert_emits | intros ? ->; apply monoidal_nil]
  | |- emits _ (run _ _ _ _) _ =>
      eapply emits_mono; [apply run_emits; typeclasses eauto | intros ? [? ->]; tac]
  | |- emits _ (nspawn _ _ _ _ _) _ =>
      eapply emits_mono; [apply nspawn_emits; typeclasses eauto | intros ? [? ->]; tac]
  | |- emits _ (mount _ _ _ _ _) _ =>
      unfold mount; emits_walk tac
  | |- emits _ (umount _ _) _ =>
      unfold umount; emits_walk tac
  | |- emits _ (is_file _ _) _ =>
      eapply emits_mono; [apply is_file_emits; typeclasses eauto | intros ? [? ->]; tac]
  | |- emits _ (is_dir _ _) _ =>
      eapply emits_mono; [apply is_dir_emits; typeclasses eauto | intros ? [? ->]; tac]
  | |- emits _ (makedirs _ _ _) _ =>
      eapply emits_mono;
      [apply makedirs_emits; typeclasses eauto
      | intros ? [-> | [? ->]]; [apply monoidal_nil | tac]]
  | |- emits _ (write_text _ _ _) _ =>
      eapply emits_mono; [apply write_text_emits; typeclasses eauto | intros ? [? ->]; tac]
  | |- emits _ (read_lines _ _) _ =>
      eapply emits_mono; [apply read_lines_emits; typeclasses eauto | intros ? [? ->]; tac]
  | |- emits _ (if ?b then _ else _) _ => destruct b; emits_walk tac
  | |- emits _ (match ?x with _ => _ end) _ => destruct x; emits_walk tac
  | |- emits _ (let _ := _ in _) _ => cbv zeta; emits_walk tac
  | |- _ => idtac
  end.

(** ** Mounts and unmounts of a session (C1) *)

Definition is_mount_cmd (cmd : string) : bool := String.prefix "sudo mount " cmd.
Definition is_umount_cmd (cmd : string) : bool := String.prefix "sudo umount " cmd.

(** The events that are calls of [mount] or of [umount]. *)
Definition mount_op (e : event) : bool :=
  match e with
  | Exec cmd _ => is_mount_cmd cmd || is_umount_cmd cmd
  | _ => false
  end.

Definition is_mount_call (e : event) : bool :=
  match e with Exec cmd _ => is_mount_cmd cmd | _ => false end.

Definition is_umount_call (e : event) : bool :=
  match e with Exec cmd _ => is_umount_cmd cmd | _ => false end.

Definition mount_calls (d : list event) : nat := List.length (List.filter is_mount_call d).

Definition umount_calls (d : list event) : nat := List.length (List.filter is_umount_call d).

(** A call of [mount] succeeds when the command returns 0 and the check of
    [usr/bin/apt] under the mount point, which follows it, passes. *)
Fixpoint successful_mounts (d : list event) : nat :=
  match d with
  | [] => 0%nat
  | Exec cmd rc :: ((Probe _ true :: _) as d') =>
      ((if is_mount_cmd cmd && (rc =? 0)%Z then 1 else 0) + successful_mounts d')%nat
  | _ :: d' => successful_mounts d'
  end.

(** Well-bracketed transcripts: every call of [mount] on a mount point is
    closed by a call of [umount] on that mount point, and what lies in
    between is well bracketed, so that the innermost mount is released
    first. *)
Inductive balanced : list event -> Prop :=
| balanced_nil : balanced []
| balanced_other e d : mount_op e = false -> balanced d -> balanced (e :: d)
| balanced_pair lower upper work mnt rc rc' inner d :
    balanced inner -> balanced d ->
    balanced (Exec (mount_cmd lower upper work mnt) rc
              :: inner ++ Exec (umount_cmd mnt) rc' :: d).

Lemma balanced_app d1 d2 : balanced d1 -> balanced d2 -> balanced (d1 ++ d2).
Proof.
  induction 1 as [|e d He Hd IH|lower upper work mnt rc rc' inner d Hi IHi Hd IHd];
    intros H2; simpl.
  - assumption.
  - apply balanced_other; auto.
  - rewrite <- app_assoc. simpl. apply balanced_pair; auto.
Qed.

#[global] Instance balanced_monoidal : Monoidal balanced.
Proof. split; [apply balanced_nil | apply balanced_app]. Qed.

Lemma balanced_one e : mount_op e = false -> balanced [e].
Proof. intros H. apply balanced_other; [assumption | apply balanced_nil]. Qed.

Lemma mount_cmd_is_mount lower upper work mnt :
  is_mount_cmd (mount_cmd lower upper work mnt) = true
  /\ is_umount_cmd (mount_cmd lower upper work mnt) = false.
Proof. split; reflexivity. Qed.

Lemma umount_cmd_is_umount mnt :
  is_mount_cmd (umount_cmd mnt) = false /\ is_umount_cmd (umount_cmd mnt) = true.
Proof.
  split; [reflexivity|].
  unfold is_umount_cmd, umount_cmd. cbn. destruct (mnt ++ "")%string; reflexivity.
Qed.

Lemma nspawn_cmd_not_mount rcmd dc scf rc : mount_op (Exec (nspawn_cmd rcmd dc scf) rc) = false.
Proof.
  unfold nspawn_cmd. destruct (String.eqb dc ""), (String.eqb scf ""); reflexivity.
Qed.

Lemma mount_calls_app d1 d2 : mount_calls (d1 ++ d2) = (mount_calls d1 + mount_calls d2)%nat.
Proof. unfold mount_calls. rewrite List.filter_app, length_app. reflexivity. Qed.

Lemma umount_calls_app d1 d2 : umount_calls (d1 ++ d2) = (umount_calls d1 + umount_calls d2)%nat.
Proof. unfold umount_calls. rewrite List.filter_app, length_app. reflexivity. Qed.

Lemma mount_calls_cons e d :
  mount_calls (e :: d) = ((if is_mount_call e then 1 else 0) + mount_calls d)%nat.
Proof. unfold mount_calls. simpl. destruct (is_mount_call e); reflexivity. Qed.

Lemma umount_calls_cons e d :
  umount_calls (e :: d) = ((if is_umount_call e then 1 else 0) + umount_calls d)%nat.
Proof. unfold umount_calls. simpl. destruct (is_umount_call e); reflexivity. Qed.

(** In a well-bracketed transcript there are as many unmount calls as
    mount calls. *)
Lemma balanced_counts d : balanced d -> umount_calls d = mount_calls d.
Proof.
  induction 1 as [|e d He Hd IH|lower upper work mnt rc rc' inner d Hi IHi Hd IHd].
  - reflexivity.
  - rewrite mount_calls_cons, umount_calls_cons, IH.
    destruct e as [cmd rc| | | |]; try reflexivity.
    simpl in *. apply orb_false_elim in He as [-> ->]. reflexivity.
  - rewrite mount_calls_cons, umount_calls_cons, mount_calls_app, umount_calls_app,
      mount_calls_cons, umount_calls_cons, IHi, IHd.
    unfold is_mount_call, is_umount_call.
    destruct (mount_cmd_is_mount lower upper work mnt) as [-> ->].
    destruct (umount_cmd_is_umount mnt) as [-> ->]. lia.
Qed.

Section Balance.

Context (I : world -> Prop) `{!Invariant I}.

Variable env : environment.

(** [mount] starts the mount command and, when it returned 0, probes the
    mount point. *)
Lemma mount_emits lower upper work mnt :
  emits I (mount env lower upper work mnt)
    (fun d => exists rc tl,
       d = Exec (mount_cmd lower upper work mnt) rc :: tl
       /\ (tl = [] \/ exists b, tl = [Probe (mnt </> "usr/bin/apt") b])).
Proof.
  unfold mount.
  eapply emits_mono.
  - apply emits_bind_gen with (Q := fun d => exists b, d = [Probe (mnt </> "usr/bin/apt") b]).
    + apply run_emits; assumption.
    + intros _. eapply emits_mono.
      * apply emits_bind_gen; [apply is_file_emits; assumption | intros b; apply py_assert_emits].
      * intros d (d1 & d2 & -> & [b ->] & [-> | ->]); eauto.
  - intros d (d1 & d2 & -> & [rc ->] & [-> | [b ->]]); simpl.
    + exists rc, []. auto.
    + exists rc, [Probe (mnt </> "usr/bin/apt") b]. eauto.
Qed.

Lemma umount_emits mnt :
  emits I (umount env mnt) (fun d => exists rc, d = [Exec (umount_cmd mnt) rc]).
Proof.
  unfold umount. eapply emits_mono.
  - apply emits_bind_gen with (Q := fun d => d = []);
      [apply run_emits; assumption | intros _; apply emits_ret; reflexivity].
  - intros d (d1 & d2 & -> & [rc ->] & [-> | ->]); eauto.
Qed.

(** The pattern of every mount in the program: [mount] is the first
    statement of a [try] whose [finally] is [umount] of the same mount
    point. *)
Lemma mount_bracket {A} lower upper work mnt (rest : M A) :
  emits I rest balanced ->
  emits I (try_finally (mount env lower upper work mnt ;; rest) (umount env mnt)) balanced.
Proof.
  intros Hrest. eapply emits_mono.
  - apply emits_finally_gen; [|apply umount_emits].
    apply emits_bind_gen; [apply mount_emits | intros _; exact Hrest].
  - intros d (d1 & d2 & -> & (dm & dr & -> & (rc & tl & -> & Htl) & Hr) & [rc' ->]).
    simpl. rewrite <- !app_assoc.
    replace (tl ++ dr ++ [Exec (umount_cmd mnt) rc'])
      with ((tl ++ dr) ++ Exec (umount_cmd mnt) rc' :: []) by (rewrite <- app_assoc; reflexivity).
    apply balanced_pair; [|apply balanced_nil].
    apply balanced_app.
    + destruct Htl as [-> | [b ->]]; [apply balanced_nil | apply balanced_one; reflexivity].
    + destruct Hr as [-> | Hr]; [apply balanced_nil | assumption].
Qed.

Ltac quiet_event :=
  first [ apply balanced_one; first [ reflexivity | apply nspawn_cmd_not_mount ] ].

Lemma create_l1_balanced conf l1dir : emits I (create_l1 env conf l1dir) balanced.
Proof. unfold create_l1. emits_walk quiet_event. Qed.

Lemma extract_build_dependencies_balanced l1dir :
  emits I (extract_build_dependencies env l1dir) balanced.
Proof. unfold extract_build_dependencies. emits_walk quiet_event. Qed.

(** The [try] of [create_l2] is a bracket too, were it reached. *)
Lemma create_l2_layer_balanced conf l1dir l2dir l2workdir l2mountdir deps :
  emits I (create_l2_layer env conf l1dir l2dir l2workdir l2mountdir deps) balanced.
Proof.
  unfold create_l2_layer.
  do 3 (apply emits_bind; [typeclasses eauto | emits_walk quiet_event | intros ?]).
  apply mount_bracket. emits_walk quiet_event.
Qed.

Lemma create_l2_balanced conf l1dir l2dir l2workdir l2mountdir deps :
  emits I (create_l2 env conf l1dir l2dir l2workdir l2mountdir deps) balanced.
Proof.
  unfold create_l2.
  apply emits_bind; [typeclasses eauto | emits_walk quiet_event | intros ?].
  apply create_l2_layer_balanced.
Qed.

Lemma build_l3_balanced conf dep_hash : emits I (build_l3 env conf dep_hash) balanced.
Proof.
  unfold build_l3. cbv zeta.
  do 2 (apply emits_bind; [typeclasses eauto | emits_walk quiet_event | intros ?]).
  apply mount_bracket. emits_walk quiet_event.
Qed.

Lemma build_layers_balanced conf deps dep_hash :
  emits I (build_layers env conf deps dep_hash) balanced.
Proof.
  unfold build_layers. cbv zeta.
  apply emits_bind; [typeclasses eauto | emits_walk quiet_event | intros ?].
  apply emits_bind; [typeclasses eauto | emits_walk quiet_event | intros ex].
  apply emits_bind; [typeclasses eauto | | intros ?].
  { destruct (negb ex); [apply create_l2_balanced | emits_walk quiet_event]. }
  apply mount_bracket.
  apply emits_bind; [typeclasses eauto | emits_walk quiet_event | intros ?].
  apply build_l3_balanced.
Qed.

Lemma build_export_balanced conf dep_hash success :
  emits I (build_export env conf dep_hash success) balanced.
Proof. unfold build_export. emits_walk quiet_event. Qed.

Lemma build_balanced conf : emits I (build env conf) balanced.
Proof.
  unfold build.
  apply emits_bind; [typeclasses eauto | | intros [deps dep_hash]].
  { unfold build_fingerprint. cbv zeta.
    apply emits_bind; [typeclasses eauto | emits_walk quiet_event | intros ex].
    apply emits_bind; [typeclasses eauto | | intros _; apply extract_build_dependencies_balanced].
    destruct (negb ex); [apply create_l1_balanced | emits_walk quiet_event]. }
  apply emits_bind; [typeclasses eauto | apply build_layers_balanced | intros success].
  apply build_export_balanced.
Qed.

End Balance.

Lemma successful_mounts_le d : (successful_mounts d <= mount_calls d)%nat.
Proof.
  induction d as [|e d IH]; [reflexivity|].
  rewrite mount_calls_cons. destruct e as [cmd rc| | | |]; simpl; try assumption.
  destruct d as [|[| p [] | | |] d']; simpl in *; try lia.
  destruct (is_mount_cmd cmd); simpl; [destruct (rc =? 0)%Z|]; simpl; lia.
Qed.

(** ** Sample sessions *)

Module Scenario.

Definition sid : conf_t := {|
  action := Build;
  cachedir := "/var/cache/conbuilder";
  codename := "sid";
  verbose := 0;
  extra_args := ["-us"; "-uc"];
  export_dir := "../build-area/";
  drop_capability := "";
  system_call_filter := ""
|}.

(** The output of the simulated dependency run for a source tree that
    needs libfoo 1.0 and libbar 2.0. *)
Definition simulated_output : list string :=
  ["Reading package lists..." +:+ newline;
   "Inst libfoo (1.0 Debian:unstable [amd64])" +:+ newline;
   "Inst libbar (2.0 Debian:unstable [amd64])" +:+ newline;
   "Conf libfoo (1.0 Debian:unstable [amd64])" +:+ newline].

Definition is_simulation (cmd : string) : bool :=
  String.eqb cmd (nspawn_cmd (extract_cmd (l1dir_of sid)) "" "").

(** Every tool succeeds, every probe finds its file. *)
Definition all_fine : environment := {|
  popen_env := fun _ cmd => if is_simulation cmd then (0, simulated_output, "") else (0, [], "");
  is_file_env := fun _ _ => true;
  is_dir_env := fun _ _ => true;
  writable_env := fun _ _ => true;
  read_env := fun _ _ => None;
  abspath_env := fun p => "/home/dev/pkg/" +:+ p
|}.

(** The mount facility refuses every request (status 32); the rest is as
    in [all_fine]. *)
Definition mount_refused : environment := {|
  popen_env := fun _ cmd =>
    if is_simulation cmd then (0, simulated_output, "")
    else if is_mount_cmd cmd || is_umount_cmd cmd then (32, [], "mount: permission denied")
    else (0, [], "");
  is_file_env := fun _ _ => true;
  is_dir_env := fun _ _ => true;
  writable_env := fun _ _ => true;
  read_env := fun _ _ => None;
  abspath_env := fun p => "/home/dev/pkg/" +:+ p
|}.

Definition empty_cache : world := {| dirs := ∅; files := ∅; trace := []; console := [] |}.

Definition l2_hash : string := "284ba56263".

(** A cache that holds the base system and the L2 layer of [l2_hash]. *)
Definition warm_cache : world := {|
  dirs := list_to_set [l1dir_of sid; fs_dir sid "l2" l2_hash; work_dir sid "l2" l2_hash;
                       mount_dir sid "l2" l2_hash];
  files := ∅; trace := []; console := []
|}.

Example simulated_fingerprint :
  fingerprint_of_output (map PyStr.rstrip simulated_output)
  = Ok ([("libbar", "2.0"); ("libfoo", "1.0")], l2_hash).
Proof. vm_compute. reflexivity. Qed.

End Scenario.

(** C1, as stated: the number of unmount calls of a build session equals
    the number of its successful mount calls. *)
Definition umounts_match_successful_mounts (env : environment) (conf : conf_t) (w : world) : Prop :=
  let d := session_events w (build env conf w).2 in
  umount_calls d = successful_mounts d.

(** C1 fails where a mount is refused: [mount] is the first statement
    inside its [try], so the [finally] calls [umount] although no mount
    succeeded. *)
Lemma umounts_exceed_successful_mounts :
  let d := session_events Scenario.warm_cache
             (build Scenario.mount_refused Scenario.sid Scenario.warm_cache).2 in
  d = [Exec (nspawn_cmd (extract_cmd (l1dir_of Scenario.sid)) "" "") 0;
       Exec (mount_cmd (l1dir_of Scenario.sid) (fs_dir Scenario.sid "l2" Scenario.l2_hash)
               (work_dir Scenario.sid "l2" Scenario.l2_hash)
               (mount_dir Scenario.sid "l2" Scenario.l2_hash)) 32;
       Exec (umount_cmd (mount_dir Scenario.sid "l2" Scenario.l2_hash)) 32]
  /\ umount_calls d = 1%nat
  /\ successful_mounts d = 0%nat
  /\ ~ umounts_match_successful_mounts Scenario.mount_refused Scenario.sid Scenario.warm_cache.
Proof.
  repeat split; try (vm_compute; reflexivity).
  unfold umounts_match_successful_mounts. vm_compute. discriminate.
Qed.

(** C1, amended.  In every build session, whatever its outcome, the calls
    of [mount] and [umount] are well bracketed: each call of [mount],
    successful or not, is followed by one call of [umount] on the same
    mount point, the innermost first, and all of them are in the
    transcript when [build] returns or raises.  So there are as many
    unmount calls as mount calls, and at least as many as successful
    mounts. *)
Theorem build_mounts_balanced (env : environment) (conf : conf_t) (w : world) :
  let w' := (build env conf w).2 in
  let d := session_events w w' in
  trace w' = trace w ++ d
  /\ balanced d
  /\ umount_calls d = mount_calls d
  /\ (successful_mounts d <= umount_calls d)%nat.
Proof.
  intros w' d.
  destruct (build_balanced any_world env conf w I) as (d0 & Hd0 & Hbal & _).
  assert (Hd : d = d0) by (apply session_events_app; exact Hd0).
  rewrite Hd. repeat split; try assumption.
  - apply balanced_counts; assumption.
  - rewrite (balanced_counts _ Hbal). apply successful_mounts_le.
Qed.

(** ** What a call may change in the cache *)

(** [m] leaves the world in relation [R] with the one it started from,
    whatever the outcome. *)
Definition keeps {A} (R : relation world) (m : M A) : Prop := forall w, R w (m w).2.

(** The events that go with no change of the cache: all but a directory
    made and a file written. *)
Definition passive (e : event) : Prop :=
  match e with
  | Mkdir _ true | Write _ _ true => False
  | _ => True
  end.

(** Relations the effects of the program respect, effect by effect. *)
Class Frame (R : relation world) : Prop := {
  frame_preorder :: PreOrder R;
  frame_console : forall c w,
    R w {| dirs := dirs w; files := files w; trace := trace w; console := c |};
  frame_log : forall e w, passive e -> R w (log e w)
}.

Section Keeps.

Context (R : relation world) `{!Frame R}.

Lemma keeps_ret {A} (a : A) : keeps R (mret a).
Proof. intros w. simpl. reflexivity. Qed.

Lemma keeps_raise {A} (e : exn) : keeps R (@raise A e).
Proof. intros w. simpl. reflexivity. Qed.

Lemma keeps_bind {A B} (m : M A) (f : A -> M B) :
  keeps R m -> (forall a, keeps R (f a)) -> keeps R (m ≫= f).
Proof.
  intros Hm Hf w. unfold mbind, M_bind. specialize (Hm w).
  destruct (m w) as [[a|e] w1]; simpl in *; [|assumption].
  etrans; [exact Hm | apply Hf].
Qed.

Lemma keeps_finally {A} (body : M A) (fin : M unit) :
  keeps R body -> keeps R fin -> keeps R (try_finally body fin).
Proof.
  intros Hb Hf w. unfold try_finally. specialize (Hb w).
  destruct (body w) as [r w1]. specialize (Hf w1).
  destruct (fin w1) as [[[]|e] w2]; simpl in *; etrans; eassumption.
Qed.

Lemma keeps_for_each {A} (l : list A) (f : A -> M unit) :
  (forall x, keeps R (f x)) -> keeps R (for_each l f).
Proof.
  intros Hf. induction l as [|x r IH]; simpl.
  - apply keeps_ret.
  - apply keeps_bind; [apply Hf | intros _; exact IH].
Qed.

Lemma keeps_print sev a : keeps R (print sev a).
Proof.
  intros w. unfold print. destruct (join_args a); simpl; [apply frame_console | reflexivity].
Qed.

(** After a [print] that raises, nothing is run. *)
Lemma keeps_print_raises {A} sev a (m : M A) :
  texts a = None -> keeps R (print sev a ;; m).
Proof.
  intros Ha w. unfold mbind, M_bind, print, join_args. rewrite Ha. simpl. reflexivity.
Qed.

Lemma keeps_path_exists p : keeps R (path_exists p).
Proof. intros w. simpl. reflexivity. Qed.

Lemma keeps_iterdir p : keeps R (iterdir p).
Proof. intros w. simpl. reflexivity. Qed.

Lemma keeps_py_assert b msg : keeps R (py_assert b msg).
Proof. intros w. destruct b; simpl; reflexivity. Qed.

Variable env : environment.

Lemma keeps_popen cmd : keeps R (popen env cmd).
Proof.
  intros w. unfold popen. destruct (popen_env _ _ _) as [[rc raw] err].
  apply frame_log. exact I.
Qed.

Lemma keeps_is_file p : keeps R (is_file env p).
Proof. intros w. apply frame_log. exact I. Qed.

Lemma keeps_is_dir p : keeps R (is_dir env p).
Proof. intros w. apply frame_log. exact I. Qed.

Lemma keeps_read_lines p : keeps R (read_lines env p).
Proof. intros w. unfold read_lines. destruct (read_env _ _ _); apply frame_log; exact I. Qed.

Lemma keeps_decode b : keeps R (decode b).
Proof. unfold decode. destruct (Utf8.valid b); [apply keeps_ret | apply keeps_raise]. Qed.

Lemma keeps_read_loop raw quiet : forall out, keeps R (read_loop raw quiet out).
Proof.
  induction raw as [|line rest IH]; intros out; simpl; [apply keeps_ret|].
  destruct (String.eqb line ""); [apply keeps_ret|].
  apply keeps_bind; [apply keeps_decode | intros line'].
  apply keeps_bind; [|intros _; apply IH].
  destruct quiet; [apply keeps_ret | apply keeps_print].
Qed.

Lemma keeps_run cmd quietcmd quiet : keeps R (run env cmd quietcmd quiet).
Proof.
  unfold run.
  apply keeps_bind; [destruct quietcmd; [apply keeps_ret | apply keeps_print]|intros _].
  apply keeps_bind; [apply keeps_popen | intros [[rc raw] err]].
  apply keeps_bind; [apply keeps_read_loop | intros out].
  destruct (negb (rc =? 0)); [|apply keeps_ret].
  apply keeps_bind; [apply keeps_print | intros _].
  apply keeps_bind; [apply keeps_decode | intros err'].
  repeat (apply keeps_bind; [apply keeps_print | intros _]). apply keeps_raise.
Qed.

Lemma keeps_nspawn rcmd quiet dc scf : keeps R (nspawn env rcmd quiet dc scf).
Proof. apply keeps_run. Qed.

Lemma keeps_mount lower upper work mnt : keeps R (mount env lower upper work mnt).
Proof.
  unfold mount. apply keeps_bind; [apply keeps_run | intros _].
  apply keeps_bind; [apply keeps_is_file | intros b; apply keeps_py_assert].
Qed.

Lemma keeps_umount mnt : keeps R (umount env mnt).
Proof. unfold umount. apply keeps_bind; [apply keeps_run | intros _; apply keeps_ret]. Qed.

(** [makedirs] and [write_text] respect [R] when adding a directory, or
    putting a file, does. *)
Lemma keeps_makedirs p exist_ok :
  (forall w, R w (log (Mkdir p true) (add_dir p w))) ->
  keeps R (makedirs env p exist_ok).
Proof.
  intros Hadd w. unfold makedirs.
  destruct (bool_decide _); [destruct exist_ok|destruct (writable_env _ _ _)]; simpl;
    try reflexivity; try (apply frame_log; exact I).
  apply Hadd.
Qed.

Lemma keeps_write_text p data :
  (forall w, R w (log (Write p data true) (put_file p data w))) ->
  keeps R (write_text env p data).
Proof.
  intros Hput w. unfold write_text.
  destruct (writable_env _ _ _); simpl; [apply Hput | apply frame_log; exact I].
Qed.

End Keeps.

(** The walk through a function for [keeps]; [tac] discharges the
    obligations of [makedirs] and [write_text]. *)
Ltac keeps_walk tac :=
  lazymatch goal with
  | |- keeps _ (mret _) => apply keeps_ret; typeclasses eauto
  | |- keeps _ (raise _) => apply keeps_raise; typeclasses eauto
  | |- keeps _ (info (_ :: PathV _ :: _) ≫= _) =>
      apply keeps_print_raises; [typeclasses eauto | reflexivity]
  | |- keeps _ (_ ≫= _) =>
      apply keeps_bind; [typeclasses eauto | keeps_walk tac | intros ?; keeps_walk tac]
  | |- keeps _ (try_finally _ _) =>
      apply keeps_finally; [typeclasses eauto | keeps_walk tac | keeps_walk tac]
  | |- keeps _ (for_each _ _) =>
      apply keeps_for_each; [typeclasses eauto | intros ?; keeps_walk tac]
  | |- keeps _ (info _) => apply keeps_print; typeclasses eauto
  | |- keeps _ (error _) => apply keeps_print; typeclasses eauto
  | |- keeps _ (path_exists _) => apply keeps_path_exists; typeclasses eauto
  | |- keeps _ (iterdir _) => apply keeps_iterdir; typeclasses eauto
  | |- keeps _ (py_assert _ _) => apply keeps_py_assert; typeclasses eauto
  | |- keeps _ (run _ _ _ _) => apply keeps_run; typeclasses eauto
  | |- keeps _ (nspawn _ _ _ _ _) => apply keeps_nspawn; typeclasses eauto
  | |- keeps _ (mount _ _ _ _ _) => apply keeps_mount; typeclasses eauto
  | |- keeps _ (umount _ _) => apply keeps_umount; typeclasses eauto
  | |- keeps _ (is_file _ _) => apply keeps_is_file; typeclasses eauto
  | |- keeps _ (is_dir _ _) => apply keeps_is_dir; typeclasses eauto
  | |- keeps _ (read_lines _ _) => apply keeps_read_lines; typeclasses eauto
  | |- keeps _ (makedirs _ _ _) => apply keeps_makedirs; [typeclasses eauto | tac]
  | |- keeps _ (write_text _ _ _) => apply keeps_write_text; [typeclasses eauto | tac]
  | |- keeps _ (if ?b then _ else _) => destruct b; keeps_walk tac
  | |- keeps _ (match ?x with _ => _ end) => destruct x; keeps_walk tac
  | |- keeps _ (let _ := _ in _) => cbv zeta; keeps_walk tac
  | |- _ => idtac
  end.

(** The cache is untouched: same directories, same files. *)
Definition same_cache (w w' : world) : Prop := dirs w' = dirs w /\ files w' = files w.

#[global] Instance same_cache_frame : Frame same_cache.
Proof.
  split.
  - split; [intros w; split; reflexivity|].
    intros w1 w2 w3 [H1 H2] [H3 H4]. split; congruence.
  - intros c w. split; reflexivity.
  - intros e w _. split; reflexivity.
Qed.

(** ** The guard of [create] (C7) *)

Definition l1_conflict_message : string := "Error: the base filesystem (L1) already exists".

(** C7. When the L1 directory of the codename exists, [create] prints the
    error and exits with status 1 (the layer conflict): no tool is run,
    nothing is probed, created or written, so the base system is left as
    it was. *)
Theorem create_over_existing_l1 (env : environment) (conf : conf_t) (w : world) :
  action conf = Create ->
  l1dir_of conf ∈ dirs w ->
  main env conf w
  = (Raise (SystemExit 1),
     {| dirs := dirs w; files := files w; trace := trace w;
        console := console w ++ [(Error, l1_conflict_message)] |}).
Proof.
  intros Hact Hex. unfold main. rewrite Hact.
  unfold create_l1, mbind, M_bind, path_exists.
  rewrite bool_decide_eq_true_2 by assumption. reflexivity.
Qed.

Lemma create_over_existing_l1_witness :
  let conf := {| action := Create; cachedir := "/var/cache/conbuilder"; codename := "sid";
                 verbose := 0; extra_args := []; export_dir := ""; drop_capability := "";
                 system_call_filter := "" |} in
  (main Scenario.all_fine conf Scenario.warm_cache).1 = Raise (SystemExit 1)
  /\ trace (main Scenario.all_fine conf Scenario.warm_cache).2 = []
  /\ dirs (main Scenario.all_fine conf Scenario.warm_cache).2 = dirs Scenario.warm_cache.
Proof.
  intros conf.
  rewrite (create_over_existing_l1 Scenario.all_fine conf Scenario.warm_cache
             eq_refl ltac:(apply (bool_decide_unpack _); vm_compute; exact I)).
  repeat split.
Defined.

(** ** [update] (C8) *)

Definition update_cmd (l1dir : string) : string :=
  nspawn_cmd (format "-D {} -- /usr/bin/apt-get -y update" [l1dir]) "" "".

Definition dist_upgrade_cmd (l1dir : string) : string :=
  nspawn_cmd (format "-D {} -E DEBIAN_FRONTEND=noninteractive -- /usr/bin/apt-get -y dist-upgrade"
                     [l1dir]) "" "".

(** The two commands of [update], both run in a container whose root is
    the L1 directory itself. *)
Definition is_update_event (l1dir : string) (e : event) : Prop :=
  exists rc, e = Exec (update_cmd l1dir) rc \/ e = Exec (dist_upgrade_cmd l1dir) rc.

(** C8. [update] only runs the package tool inside the L1 directory of the
    codename: every event of the session is one of its two commands, and
    the directories and files of the cache (the L2 layers and their
    manifests among them) are the same afterwards; no layer is created,
    mounted, written or removed. *)
Theorem update_leaves_l2 (env : environment) (conf : conf_t) (w : world) :
  let w' := (update_l1 env conf (l1dir_of conf) w).2 in
  same_cache w w'
  /\ trace w' = trace w ++ session_events w w'
  /\ Forall (is_update_event (l1dir_of conf)) (session_events w w').
Proof.
  intros w'. split.
  - assert (H : keeps same_cache (update_l1 env conf (l1dir_of conf))).
    { unfold update_l1. keeps_walk idtac. }
    apply H.
  - assert (H : emits any_world (update_l1 env conf (l1dir_of conf))
                      (Forall (is_update_event (l1dir_of conf)))).
    { unfold update_l1.
      emits_walk ltac:(constructor; [eexists; (left; reflexivity) || (right; reflexivity) | constructor]). }
    destruct (H w I) as (d & Hd & HF & _). fold w' in Hd.
    rewrite (session_events_app w w' d Hd). auto.
Qed.

(** ** [purge] (C6) *)

Module Eviction.

(** An L2 layer of the cache: its fingerprint and its age in days. *)
Definition layer : Type := (string * Z)%type.

(** The eviction the specification describes: drop the layers older than
    [maxAgeDays]; while more than [maxCount] remain, drop the oldest. *)
Definition spec_drop_old (maxAgeDays : Z) (layers : list layer) : list layer :=
  List.filter (fun l => snd l <=? maxAgeDays) layers.

Definition oldest (layers : list layer) : option layer :=
  foldr (fun l acc => match acc with
                      | Some m => if snd m <? snd l then Some l else Some m
                      | None => Some l
                      end) None layers.

Fixpoint spec_drop_excess (fuel : nat) (maxCount : Z) (layers : list layer) : list layer :=
  match fuel with
  | O => layers
  | S k =>
      if Z.of_nat (List.length layers) <=? maxCount then layers
      else match oldest layers with
           | Some m => spec_drop_excess k maxCount
                         (List.filter (fun l => negb (String.eqb (fst l) (fst m))) layers)
           | None => layers
           end
  end.

Definition spec_purge (maxAgeDays maxCount : Z) (layers : list layer) : list layer :=
  let kept := spec_drop_old maxAgeDays layers in
  spec_drop_excess (List.length kept) maxCount kept.

(** Four L2 layers, aged 5, 40, 2 and 35 days. *)
Definition layers : list layer :=
  [("aaaaaaaaaa", 5); ("bbbbbbbbbb", 40); ("cccccccccc", 2); ("dddddddddd", 35)].

Definition purge_conf : conf_t := {|
  action := Purge; cachedir := "/var/cache/conbuilder"; codename := "sid"; verbose := 0;
  extra_args := []; export_dir := "../build-area/"; drop_capability := "";
  system_call_filter := ""
|}.

Definition cache : world := {|
  dirs := list_to_set (l1dir_of purge_conf :: map (fun l => fs_dir purge_conf "l2" (fst l)) layers);
  files := ∅; trace := []; console := []
|}.

Example spec_purge_scenario :
  spec_purge 30 10 layers = [("aaaaaaaaaa", 5); ("cccccccccc", 2)].
Proof. reflexivity. Qed.

(** C6, as stated: after [purge], the L2 layers that are left are those
    the eviction of the specification keeps. *)
Definition purge_evicts (env : environment) (conf : conf_t) (w : world)
    (maxAgeDays maxCount : Z) (ls : list layer) : Prop :=
  forall l, l ∈ ls ->
    fs_dir conf "l2" (fst l) ∈ dirs (main env conf w).2 <-> l ∈ spec_purge maxAgeDays maxCount ls.

End Eviction.

(** C6 fails: [purge] raises [NotImplementedError], and the layers aged 40
    and 35 days are still in the cache. *)
Lemma purge_keeps_old_layers :
  main Scenario.all_fine Eviction.purge_conf Eviction.cache
  = (Raise NotImplementedError, Eviction.cache)
  /\ fs_dir Eviction.purge_conf "l2" "bbbbbbbbbb" ∈ dirs (main Scenario.all_fine Eviction.purge_conf Eviction.cache).2
  /\ fs_dir Eviction.purge_conf "l2" "dddddddddd" ∈ dirs (main Scenario.all_fine Eviction.purge_conf Eviction.cache).2
  /\ ~ Eviction.purge_evicts Scenario.all_fine Eviction.purge_conf Eviction.cache 30 10 Eviction.layers.
Proof.
  split; [reflexivity|].
  assert (Hb : fs_dir Eviction.purge_conf "l2" "bbbbbbbbbb" ∈ dirs Eviction.cache).
  { apply (bool_decide_unpack _). vm_compute. exact I. }
  assert (Hd : fs_dir Eviction.purge_conf "l2" "dddddddddd" ∈ dirs Eviction.cache).
  { apply (bool_decide_unpack _). vm_compute. exact I. }
  split; [exact Hb|]. split; [exact Hd|].
  intros H. specialize (H ("bbbbbbbbbb", 40)).
  assert (Hin : ("bbbbbbbbbb", 40) ∈ Eviction.layers).
  { apply (bool_decide_unpack _). vm_compute. exact I. }
  apply H in Hin. apply Hin in Hb.
  rewrite Eviction.spec_purge_scenario in Hb.
  apply elem_of_cons in Hb as [Hb|Hb]; [discriminate|].
  apply elem_of_cons in Hb as [Hb|Hb]; [discriminate|].
  apply elem_of_nil in Hb. exact Hb.
Qed.

(** C6, amended.  The purge action is not implemented: whatever the cache
    holds and whatever the configuration, it raises [NotImplementedError]
    and deletes no layer; the world is left as it was. *)
Theorem purge_not_implemented (env : environment) (conf : conf_t) (w : world) :
  action conf = Purge ->
  main env conf w = (Raise NotImplementedError, w).
Proof. intros Hact. unfold main. rewrite Hact. reflexivity. Qed.

Lemma purge_not_implemented_witness :
  main Scenario.all_fine Eviction.purge_conf Eviction.cache
  = (Raise NotImplementedError, Eviction.cache)
  /\ dirs (main Scenario.all_fine Eviction.purge_conf Eviction.cache).2 = dirs Eviction.cache.
Proof.
  rewrite (purge_not_implemented Scenario.all_fine Eviction.purge_conf Eviction.cache eq_refl).
  split; reflexivity.
Defined.

(** ** The cache as a function of the transcript *)

(** The directories made, and the files written, by the events [d]. *)
Definition made (d : list event) : gset string :=
  ⋃ ((fun e => match e with
               | Mkdir p true => {[ p ]} ∪ list_to_set (parents p)
               | _ => ∅
               end) <$> d).

Definition written (d : list event) (fs : gmap string string) : gmap string string :=
  foldl (fun fs e => match e with
                     | Write p data true => <[ p := data ]> fs
                     | _ => fs
                     end) fs d.

(** From [w], the events [d] lead to [w']. *)
Definition went (w : world) (d : list event) (w' : world) : Prop :=
  trace w' = trace w ++ d
  /\ dirs w' = made d ∪ dirs w
  /\ files w' = written d (files w).

Lemma made_app d1 d2 : made (d1 ++ d2) = made d1 ∪ made d2.
Proof. unfold made. rewrite fmap_app, union_list_app_L. reflexivity. Qed.

Lemma written_app d1 d2 fs : written (d1 ++ d2) fs = written d2 (written d1 fs).
Proof. unfold written. apply foldl_app. Qed.

Lemma went_refl w : went w [] w.
Proof.
  unfold went, made, written. simpl. rewrite app_nil_r.
  split; [reflexivity|]. split; [|reflexivity]. apply set_eq. set_solver.
Qed.

Lemma went_trans w1 d1 w2 d2 w3 : went w1 d1 w2 -> went w2 d2 w3 -> went w1 (d1 ++ d2) w3.
Proof.
  intros (Ht1 & Hd1 & Hf1) (Ht2 & Hd2 & Hf2). unfold went.
  rewrite Ht2, Ht1, Hd2, Hd1, Hf2, Hf1, app_assoc, made_app, written_app.
  split; [reflexivity|]. split; [|reflexivity]. apply set_eq. set_solver.
Qed.

Lemma went_console c w :
  went w [] {| dirs := dirs w; files := files w; trace := trace w; console := c |}.
Proof.
  unfold went, made, written. simpl. rewrite app_nil_r.
  split; [reflexivity|]. split; [|reflexivity]. apply set_eq. set_solver.
Qed.

Lemma went_log e w : passive e -> went w [e] (log e w).
Proof.
  intros He. unfold went, made, written. simpl.
  split; [reflexivity|].
  destruct e as [| | p [] | p data [] |]; simpl in *; try contradiction;
    (split; [apply set_eq; set_solver | reflexivity]).
Qed.

Lemma went_mkdir p w : went w [Mkdir p true] (log (Mkdir p true) (add_dir p w)).
Proof.
  unfold went, made, written. simpl.
  split; [reflexivity|]. split; [|reflexivity]. apply set_eq. set_solver.
Qed.

Lemma went_write p data w : went w [Write p data true] (log (Write p data true) (put_file p data w)).
Proof.
  unfold went, made, written. simpl.
  split; [reflexivity|]. split; [|reflexivity]. apply set_eq. set_solver.
Qed.

(** Whatever a call does, the cache afterwards is the cache before plus
    what the transcript says was made and written. *)
Definition tracked (w w' : world) : Prop := exists d, went w d w'.

#[global] Instance tracked_frame : Frame tracked.
Proof.
  split.
  - split.
    + intros w. exists []. apply went_refl.
    + intros w1 w2 w3 [d1 H1] [d2 H2]. exists (d1 ++ d2). eapply went_trans; eassumption.
  - intros c w. exists []. apply went_console.
  - intros e w He. exists [e]. apply went_log. assumption.
Qed.

Lemma tracked_mkdir p w : tracked w (log (Mkdir p true) (add_dir p w)).
Proof. eexists. apply went_mkdir. Qed.

Lemma tracked_write p data w : tracked w (log (Write p data true) (put_file p data w)).
Proof. eexists. apply went_write. Qed.

Ltac tracked_step := intros; first [apply tracked_mkdir | apply tracked_write].

Lemma went_nil_dirs w w' : went w [] w' -> dirs w' = dirs w.
Proof. intros (_ & Hd & _). rewrite Hd. unfold made. simpl. apply set_eq. set_solver. Qed.

Lemma went_session w d w' : went w d w' -> session_events w w' = d.
Proof. intros (Ht & _). apply session_events_app. assumption. Qed.

(** ** Calls that return *)

Lemma bind_Ok_inv {A B} (m : M A) (f : A -> M B) w b w' :
  (m ≫= f) w = (Ok b, w') -> exists a w1, m w = (Ok a, w1) /\ f a w1 = (Ok b, w').
Proof.
  unfold mbind, M_bind. destruct (m w) as [[a|e] w1]; [eauto | discriminate].
Qed.

Lemma finally_Ok_inv {A} (body : M A) (fin : M unit) w a w' :
  try_finally body fin w = (Ok a, w') ->
  exists w1, body w = (Ok a, w1) /\ fin w1 = (Ok (), w').
Proof.
  unfold try_finally. destruct (body w) as [r w1].
  destruct (fin w1) as [[[]|e] w2] eqn:Efin; intros H; inversion H; subst.
  exists w1. split; [reflexivity | assumption].
Qed.

Lemma ret_inv {A} (a : A) w (r : result A) w' :
  (mret a : M A) w = (r, w') -> r = Ok a /\ w' = w.
Proof. intros H. inversion H. auto. Qed.

Lemma print_inv sev a w r w' : print sev a w = (r, w') -> went w [] w'.
Proof.
  unfold print. destruct (join_args a); intros H; inversion H;
    [apply went_console | apply went_refl].
Qed.

(** A call of [info] with a [Path] among its arguments does not return. *)
Lemma print_path_raises sev a w : texts a = None -> print sev a w = (Raise TypeError, w).
Proof. intros H. unfold print, join_args. rewrite H. reflexivity. Qed.

Lemma path_exists_inv p w r w' :
  path_exists p w = (r, w') -> r = Ok (bool_decide (p ∈ dirs w)) /\ w' = w.
Proof. intros H. inversion H. auto. Qed.

Lemma py_assert_Ok_inv b msg w w' : py_assert b msg w = (Ok (), w') -> b = true /\ w' = w.
Proof. destruct b; simpl; intros H; inversion H; auto. Qed.

Section Returns.

Variable env : environment.

Lemma is_file_inv p w r w' :
  is_file env p w = (r, w') -> exists b, r = Ok b /\ went w [Probe p b] w'.
Proof. intros H. inversion H. eexists. split; [reflexivity | apply went_log; exact I]. Qed.

Lemma is_dir_inv p w r w' :
  is_dir env p w = (r, w') -> exists b, r = Ok b /\ went w [Probe p b] w'.
Proof. intros H. inversion H. eexists. split; [reflexivity | apply went_log; exact I]. Qed.

Lemma makedirs_Ok_inv p w w' :
  makedirs env p false w = (Ok (), w') -> (p ∉ dirs w) /\ went w [Mkdir p true] w'.
Proof.
  unfold makedirs. destruct (bool_decide (p ∈ dirs w)) eqn:E; [discriminate|].
  destruct (writable_env _ _ _); intros H; inversion H.
  split; [|apply went_mkdir].
  intros Hin. apply (bool_decide_eq_true_2 _) in Hin. congruence.
Qed.

Lemma write_text_Ok_inv p data w w' :
  write_text env p data w = (Ok (), w') -> went w [Write p data true] w'.
Proof.
  unfold write_text. destruct (writable_env _ _ _); intros H; inversion H. apply went_write.
Qed.

Lemma read_loop_went raw quiet : forall out w r w',
  read_loop raw quiet out w = (r, w') -> went w [] w'.
Proof.
  induction raw as [|line rest IH]; intros out w r w' H; simpl in H.
  - inversion H. apply went_refl.
  - destruct (String.eqb line ""); [inversion H; apply went_refl|].
    unfold mbind, M_bind, decode in H.
    destruct (Utf8.valid (PyStr.rstrip line)); simpl in H; [|inversion H; apply went_refl].
    destruct quiet; simpl in H.
    + eapply IH; eassumption.
    + apply IH in H. destruct H as (Ht & Hd & Hf). simpl in *.
      unfold went. rewrite Ht, Hd, Hf. auto.
Qed.

(** A [run] that returns ran its command with status 0. *)
Lemma run_Ok_inv cmd quietcmd quiet w out w' :
  run env cmd quietcmd quiet w = (Ok out, w') -> went w [Exec cmd 0] w'.
Proof.
  unfold run. intros H.
  apply bind_Ok_inv in H as ([] & w1 & H1 & H).
  assert (Hw1 : went w [] w1).
  { destruct quietcmd; [apply ret_inv in H1 as [_ ->]; apply went_refl
                       | apply print_inv in H1; assumption]. }
  apply bind_Ok_inv in H as ([[rc raw] err] & w2 & H2 & H).
  unfold popen in H2. destruct (popen_env env (trace w1) cmd) as [[rc0 raw0] err0].
  inversion H2; subst; clear H2.
  apply bind_Ok_inv in H as (out' & w3 & H3 & H).
  apply read_loop_went in H3.
  destruct (rc =? 0) eqn:Erc; simpl in H.
  - apply Z.eqb_eq in Erc. subst rc. apply ret_inv in H as [_ ->].
    change [Exec cmd 0] with ([] ++ [Exec cmd 0] ++ []).
    eapply went_trans; [exact Hw1|]. eapply went_trans; [|exact H3].
    apply went_log. exact I.
  - unfold mbind, M_bind, decode in H. simpl in H.
    destruct (Utf8.valid err); discriminate.
Qed.

Lemma nspawn_Ok_inv rcmd quiet dc scf w out w' :
  nspawn env rcmd quiet dc scf w = (Ok out, w') -> went w [Exec (nspawn_cmd rcmd dc scf) 0] w'.
Proof. apply run_Ok_inv. Qed.

Lemma mount_Ok_inv lower upper work mnt w w' :
  mount env lower upper work mnt w = (Ok (), w') ->
  went w [Exec (mount_cmd lower upper work mnt) 0; Probe (mnt </> "usr/bin/apt") true] w'.
Proof.
  unfold mount. intros H.
  apply bind_Ok_inv in H as (out & w1 & H1 & H). apply run_Ok_inv in H1.
  apply bind_Ok_inv in H as (b & w2 & H2 & H). apply is_file_inv in H2 as (b' & Hb & H2).
  inversion Hb; subst b'. apply py_assert_Ok_inv in H as [-> ->].
  apply (went_trans _ _ _ _ _ H1 H2).
Qed.

Lemma umount_Ok_inv mnt w w' :
  umount env mnt w = (Ok (), w') -> went w [Exec (umount_cmd mnt) 0] w'.
Proof.
  unfold umount. intros H.
  apply bind_Ok_inv in H as (out & w1 & H1 & H). apply run_Ok_inv in H1.
  apply ret_inv in H as [_ ->]. assumption.
Qed.

End Returns.

(** ** Texts that differ *)

Lemma string_app_assoc (a b c : string) : ((a ++ b) ++ c = a ++ (b ++ c))%string.
Proof. induction a as [|x a IH]; simpl; [reflexivity | f_equal; exact IH]. Qed.

(** Two texts that begin alike and then differ at a literal character are
    different: unfold the paths, regroup, drop the common beginning. *)
Ltac path_norm H :=
  unfold l1dir_of, fs_dir, work_dir, mount_dir, path_join in H;
  repeat rewrite string_app_assoc in H;
  simpl in H.

Ltac str_absurd H :=
  repeat first
    [ discriminate H
    | injection H as H
    | apply (inj (String.append _)) in H ].

Ltac path_absurd H := path_norm H; str_absurd H.

(** ** Calls that cannot return *)

Section Raises.

Variable env : environment.
Variable conf : conf_t.

(** [create_l1] on a missing base system stops at its first message. *)
Lemma create_l1_raises l1dir w :
  l1dir ∉ dirs w -> create_l1 env conf l1dir w = (Raise TypeError, w).
Proof.
  intros H. unfold create_l1, mbind, M_bind, path_exists.
  rewrite bool_decide_eq_false_2 by assumption. reflexivity.
Qed.

Lemma create_l1_never_returns l1dir w w' : create_l1 env conf l1dir w <> (Ok (), w').
Proof.
  unfold create_l1, mbind, M_bind, path_exists.
  destruct (bool_decide (l1dir ∈ dirs w)); simpl; discriminate.
Qed.

(** [create_l2] stops at its first message, in every world. *)
Lemma create_l2_raises l1dir l2dir l2workdir l2mountdir deps w :
  create_l2 env conf l1dir l2dir l2workdir l2mountdir deps w = (Raise TypeError, w).
Proof. reflexivity. Qed.

(** X15. [install] never gets to its mount: whatever the environment,
    the configuration and the cache, it raises [TypeError] at a message
    that joins a text and a [Path] (its own, or the one of [create_l1]
    when the base system is missing) and leaves the world as it was. *)
Lemma install_raises w : install env conf w = (Raise TypeError, w).
Proof.
  unfold install. cbv zeta. unfold mbind at 1. unfold M_bind at 1. unfold path_exists.
  destruct (bool_decide (l1dir_of conf ∈ dirs w)) eqn:E; simpl.
  - reflexivity.
  - unfold mbind, M_bind. rewrite create_l1_raises; [reflexivity|].
    intros Hin. apply (bool_decide_eq_true_2 _) in Hin. congruence.
Qed.

End Raises.

(** ** The transcript of a build that succeeds *)

Section Success.

Variable env : environment.
Variable conf : conf_t.

Definition simulate_cmd : string := nspawn_cmd (extract_cmd (l1dir_of conf)) "" "".

(** The manifest: one [name:version] per line. *)
Definition manifest (deps : list dep) : string :=
  PyStr.join newline (map (fun '(name, ver) => format "{}:{}" [name; ver]) deps).

Definition install_cmd (F : string) : string :=
  nspawn_cmd (install_deps_cmd (mount_dir conf "l2" F)) "" "".

Definition mount_l2_cmd (F : string) : string :=
  mount_cmd (l1dir_of conf) (fs_dir conf "l2" F) (work_dir conf "l2" F) (mount_dir conf "l2" F).

Definition mount_l3_cmd (F : string) : string :=
  mount_cmd (mount_dir conf "l2" F) (fs_dir conf "l3" F) (work_dir conf "l3" F)
            (mount_dir conf "l3" F).

(** What [create_l2_layer] does when every step succeeds. *)
Definition create_l2_events (deps : list dep) (F : string) : list event :=
  [Mkdir (fs_dir conf "l2" F) true;
   Mkdir (work_dir conf "l2" F) true;
   Mkdir (mount_dir conf "l2" F) true;
   Exec (mount_l2_cmd F) 0;
   Probe (mount_dir conf "l2" F </> "usr/bin/apt") true;
   Exec (install_cmd F) 0;
   Write (mount_dir conf "l2" F </> manifest_name) (manifest deps) true;
   Exec (umount_cmd (mount_dir conf "l2" F)) 0].

Definition build_l3_events (F : string) : list event :=
  [Exec (mount_l3_cmd F) 0;
   Probe (mount_dir conf "l3" F </> "usr/bin/apt") true;
   Exec (copy_source_cmd (mount_dir conf "l3" F)) 0;
   Exec (nspawn_cmd (buildpackage_cmd (mount_dir conf "l3" F) (extra_args conf))
                    (drop_capability conf) (system_call_filter conf)) 0;
   Exec (umount_cmd (mount_dir conf "l3" F)) 0].

Definition use_events (F : string) : list event :=
  [Exec (mount_l2_cmd F) 0; Probe (mount_dir conf "l2" F </> "usr/bin/apt") true]
  ++ build_l3_events F
  ++ [Exec (umount_cmd (mount_dir conf "l2" F)) 0].

Definition export_events (F : string) : list event :=
  if String.eqb (export_dir conf) "" then []
  else map (fun e => Exec (export_cmd (fs_dir conf "l3" F) e (abspath_env env (export_dir conf))) 0)
           exts.

(** The transcript of a build that returns. *)
Definition build_events (F : string) : list event :=
  [Exec simulate_cmd 0] ++ use_events F ++ export_events F.

(** Steps of an execution that returned, chained. *)
Ltac chain :=
  repeat match goal with
  | H1 : went ?a ?d1 ?b, H2 : went ?b ?d2 ?c |- _ =>
      pose proof (went_trans _ _ _ _ _ H1 H2); clear H1 H2
  end.

Ltac returned :=
  repeat match goal with
  | u : unit |- _ => destruct u
  | H : (_ ≫= _) _ = (Ok _, _) |- _ =>
      let a := fresh "a" in let w := fresh "w" in let H1 := fresh "H" in
      apply bind_Ok_inv in H as (a & w & H1 & H)
  | H : try_finally _ _ _ = (Ok _, _) |- _ =>
      let w := fresh "w" in let H1 := fresh "H" in
      apply finally_Ok_inv in H as (w & H1 & H)
  | H : info (_ :: PathV _ :: _) _ = (Ok _, _) |- _ =>
      unfold info in H; rewrite print_path_raises in H by reflexivity; discriminate H
  | H : info _ _ = (_, _) |- _ => apply print_inv in H
  | H : print _ _ _ = (_, _) |- _ => apply print_inv in H
  | H : mret _ _ = (_, _) |- _ =>
      let E := fresh "E" in apply ret_inv in H as [E ->]; try (inversion E; subst; clear E)
  | H : run _ _ _ _ _ = (Ok _, _) |- _ => apply run_Ok_inv in H
  | H : nspawn _ _ _ _ _ _ = (Ok _, _) |- _ => apply nspawn_Ok_inv in H
  | H : mount _ _ _ _ _ _ = (Ok _, _) |- _ => apply mount_Ok_inv in H
  | H : umount _ _ _ = (Ok _, _) |- _ => apply umount_Ok_inv in H
  | H : makedirs _ _ false _ = (Ok _, _) |- _ =>
      let N := fresh "N" in apply makedirs_Ok_inv in H as [N H]
  | H : write_text _ _ _ _ = (Ok _, _) |- _ => apply write_text_Ok_inv in H
  | H : py_assert _ _ _ = (Ok _, _) |- _ => apply py_assert_Ok_inv in H as [-> ->]
  | H : is_file _ _ _ = (Ok _, _) |- _ =>
      let b := fresh "b" in let E := fresh "E" in
      apply is_file_inv in H as (b & E & H); inversion E; subst; clear E
  | H : is_dir _ _ _ = (Ok _, _) |- _ =>
      let b := fresh "b" in let E := fresh "E" in
      apply is_dir_inv in H as (b & E & H); inversion E; subst; clear E
  | H : path_exists _ _ = (Ok _, _) |- _ =>
      let E := fresh "E" in apply path_exists_inv in H as [E ->]; inversion E; subst; clear E
  | H : create_l1 _ _ _ _ = (Ok _, _) |- _ => apply create_l1_never_returns in H; contradiction
  | H : create_l2 _ _ _ _ _ _ _ _ = (Ok _, _) |- _ =>
      rewrite create_l2_raises in H; discriminate H
  end.

Lemma bool_decide_in p (w : world) : bool_decide (p ∈ dirs w) = true -> p ∈ dirs w.
Proof. apply bool_decide_eq_true_1. Qed.

Lemma extract_returns w r w' :
  extract_build_dependencies env (l1dir_of conf) w = (Ok r, w') ->
  went w [Exec simulate_cmd 0] w'.
Proof.
  unfold extract_build_dependencies. intros H. returned.
  destruct (fingerprint_of_output a) as [r'|e]; [|discriminate].
  returned. assumption.
Qed.

(** The fingerprint is computed only on an existing base system. *)
Lemma build_fingerprint_returns w r w' :
  build_fingerprint env conf w = (Ok r, w') ->
  l1dir_of conf ∈ dirs w /\ went w [Exec simulate_cmd 0] w'.
Proof.
  unfold build_fingerprint. cbv zeta. intros H. returned.
  apply extract_returns in H.
  destruct (bool_decide (l1dir_of conf ∈ dirs w)) eqn:E; simpl in *; returned.
  split; [apply bool_decide_in; assumption | assumption].
Qed.

(** X18. The part of [create_l2] from [os.makedirs] on returns only if
    the L2 content directory did not exist, and then it did exactly this,
    in this order: the three directories, the mount over L1 and its
    check, the real installation, the manifest (one [name:version] per
    line) written under the mount point, the unmount; the command line of
    the cache cleaning is never run. *)
Lemma create_l2_layer_returns deps F w w' :
  create_l2_layer env conf (l1dir_of conf) (fs_dir conf "l2" F) (work_dir conf "l2" F)
                  (mount_dir conf "l2" F) deps w = (Ok (), w') ->
  (fs_dir conf "l2" F ∉ dirs w) /\ went w (create_l2_events deps F) w'.
Proof.
  unfold create_l2_layer. intros H. returned.
  split; [assumption|].
  destruct (verbose conf =? 0); returned;
    (destruct (_parse_build_deps _); [|discriminate]); returned; chain; assumption.
Qed.

(** [build_l3] returns only when the L3 content directory existed. *)
Lemma build_l3_returns F w s w' :
  build_l3 env conf F w = (Ok s, w') ->
  s = true /\ fs_dir conf "l3" F ∈ dirs w /\ went w (build_l3_events F) w'.
Proof.
  unfold build_l3, build_l3_events. cbv zeta. intros H. returned.
  split; [reflexivity|].
  destruct (bool_decide (fs_dir conf "l3" F ∈ dirs w)) eqn:E; simpl in *; returned.
  split; [apply bool_decide_in; assumption|]. chain. assumption.
Qed.

Lemma build_layers_returns deps F w s w' :
  build_layers env conf deps F w = (Ok s, w') ->
  s = true
  /\ fs_dir conf "l2" F ∈ dirs w
  /\ fs_dir conf "l3" F ∈ dirs w
  /\ went w (use_events F) w'.
Proof.
  unfold build_layers. cbv zeta. intros H. returned.
  match goal with
  | H1 : build_l3 _ _ _ _ = _ |- _ => apply build_l3_returns in H1 as (-> & Hl3 & H1)
  end.
  split; [reflexivity|].
  match goal with
  | H0 : went w [] ?w0, H1 : context [dirs ?w0] |- _ => rewrite (went_nil_dirs _ _ H0) in H1
  end.
  destruct (bool_decide (fs_dir conf "l2" F ∈ dirs w)) eqn:E; simpl in *; returned.
  split; [apply bool_decide_in; assumption|].
  assert (Hsame : forall wa wb, went wa [] wb -> dirs wb = dirs wa) by apply went_nil_dirs.
  split.
  - repeat match goal with
           | Hm : went ?wa [Exec _ 0; Probe _ true] ?wb |- _ =>
               destruct Hm as (_ & Hd & _); unfold made in Hd; simpl in Hd
           | Hn : went ?wa [] ?wb |- _ => apply went_nil_dirs in Hn
           end.
    repeat match goal with
           | Hd : dirs _ = _ |- _ => rewrite Hd in Hl3; clear Hd
           end.
    set_solver.
  - chain. assumption.
Qed.

Lemma build_export_returns F w w' :
  build_export env conf F true w = (Ok (), w') -> went w (export_events F) w'.
Proof.
  unfold build_export, export_events, exts. cbv zeta. simpl. intros H.
  destruct (String.eqb (export_dir conf) ""); simpl in H; returned; chain; assumption.
Qed.

(** A build returns only on a cache that already holds the base system
    and the L2 and L3 content directories of the fingerprint, and then it
    goes through exactly these events: the simulated run, the two nested
    mounts around the build, and the export. *)
Lemma build_returns w w' :
  build env conf w = (Ok (), w') ->
  exists deps F wf,
    build_fingerprint env conf w = (Ok (deps, F), wf)
    /\ l1dir_of conf ∈ dirs w
    /\ fs_dir conf "l2" F ∈ dirs w
    /\ fs_dir conf "l3" F ∈ dirs w
    /\ went w (build_events F) w'.
Proof.
  unfold build. intros H.
  apply bind_Ok_inv in H as ([deps F] & wf & Hfp & H).
  exists deps, F, wf. split; [exact Hfp|].
  apply build_fingerprint_returns in Hfp as [Hl1 Hfp].
  apply bind_Ok_inv in H as (s & wl & Hl & H).
  apply build_layers_returns in Hl as (-> & Hl2 & Hl3 & Hl).
  apply build_export_returns in H.
  assert (Hdirs : dirs wf = dirs w).
  { destruct Hfp as (_ & Hd & _). rewrite Hd. unfold made. simpl. apply set_eq. set_solver. }
  rewrite Hdirs in Hl2, Hl3.
  repeat (split; [assumption|]).
  apply (went_trans _ _ _ _ _ Hfp (went_trans _ _ _ _ _ Hl H)).
Qed.

End Success.

(** ** What no build does *)

(** A cache that holds the base system of [sid] and nothing else. *)
Definition base_only : world :=
  {| dirs := {[ l1dir_of Scenario.sid ]}; files := ∅; trace := []; console := [] |}.

Definition libs : list dep := [("libbar", "2.0"); ("libfoo", "1.0")].

Section Inert.

Variable env : environment.
Variable conf : conf_t.

(** Each of the three branches of [build] that creates a layer starts
    with a message about a [Path]: the program makes no directory and
    writes no file in any build session. *)
Lemma build_same_cache : keeps same_cache (build env conf).
Proof.
  unfold build, build_fingerprint, build_layers, build_l3, build_export, create_l1, create_l2,
    extract_build_dependencies.
  cbv zeta. keeps_walk idtac.
Qed.

End Inert.

(** ** Creation of L2 (C5) *)

(** The text [needle] occurs in [cmd]. *)
Definition mentions (needle cmd : string) : bool :=
  match String.index 0 needle cmd with Some _ => true | None => false end.

Definition runs_clean (e : event) : bool :=
  match e with Exec cmd _ => mentions "apt-get clean" cmd | _ => false end.

(** C5, on the cache-miss path with every tool succeeding (base system
    present, no L2).  The build stops in [create_l2] at its first
    statement, the message that joins a text and the [Path] of the L2
    directory, with [TypeError]: after the simulated run of the dependency
    tool nothing is run and the L2 directory is not made.  The rest of
    [create_l2], run on its own from [os.makedirs] on, makes the three
    directories, mounts over L1, runs the real installation, writes the
    manifest and unmounts, and runs no command that cleans the caches of
    the package tool: the command line of [apt-get clean] is assigned to a
    variable and never run. *)
Theorem cache_miss_build_stops_in_create_l2 :
  let env := Scenario.all_fine in
  let conf := Scenario.sid in
  let F := Scenario.l2_hash in
  let b := build env conf base_only in
  let l := create_l2_layer env conf (l1dir_of conf) (fs_dir conf "l2" F) (work_dir conf "l2" F)
                           (mount_dir conf "l2" F) libs base_only in
  (build_fingerprint env conf base_only).1 = Ok (libs, F)
  /\ b.1 = Raise TypeError
  /\ trace b.2 = [Exec (simulate_cmd conf) 0]
  /\ (fs_dir conf "l2" F ∉ dirs b.2)
  /\ l.1 = Ok ()
  /\ trace l.2 = create_l2_events conf libs F
  /\ List.existsb runs_clean (trace l.2) = false
  /\ files l.2 !! (mount_dir conf "l2" F </> manifest_name)
     = Some ("libbar:2.0" +:+ newline +:+ "libfoo:1.0").
Proof.
  cbv zeta. repeat split; try (vm_compute; reflexivity).
  intros Hin. apply (bool_decide_pack _) in Hin. vm_compute in Hin. exact Hin.
Qed.

(** ** [install] (C9) *)

Section Install.

Variable env : environment.
Variable conf : conf_t.

Definition l2i_mount : string := mount_dir conf "l2i" "foo".

(** The command line [install] builds first and overwrites. *)
Definition discarded_install_cmd : string :=
  nspawn_cmd (format "-D {} -- /usr/bin/apt install -y /srv/safeeyes_2.0.0-2_all.deb" [l2i_mount])
             "" "".

(** The command line it would run. *)
Definition shell_cmd : string := nspawn_cmd (format "-D {} -- /bin/bash" [l2i_mount]) "" "".

Definition copy_deb_cmd (fn : string) : string := format "sudo cp -a {} {}/srv/" [fn; l2i_mount].

(** Commands that run in a namespace container. *)
Definition is_nspawn_cmd (cmd : string) : bool := String.prefix "sudo systemd-nspawn " cmd.

(** An event that is not a run in the namespace, or is the run of the
    shell. *)
Definition shell_or_outside (e : event) : Prop :=
  match e with
  | Exec cmd _ => is_nspawn_cmd cmd = true -> cmd = shell_cmd
  | _ => True
  end.

Lemma shell_is_not_install : shell_cmd <> discarded_install_cmd.
Proof.
  unfold shell_cmd, discarded_install_cmd, nspawn_cmd, l2i_mount. simpl. intros H.
  path_absurd H.
Qed.

Ltac outside :=
  constructor; [|constructor]; simpl;
  first [ exact I
        | intros _; reflexivity
        | intros Habs; simpl in Habs; discriminate Habs ].

(** X19. The part of [install] after its message runs, in the namespace,
    nothing but the interactive shell, whatever the outcome: the command
    line of the package installation is built and overwritten. *)
Lemma install_layer_emits :
  emits any_world (install_layer env conf) (Forall shell_or_outside).
Proof. unfold install_layer. cbv zeta. emits_walk outside. Qed.

Lemma copy_debs_return (fns : list string) : forall w w',
  for_each fns (fun fn => run env (copy_deb_cmd fn) false false ;; mret ()) w = (Ok (), w') ->
  went w (map (fun fn => Exec (copy_deb_cmd fn) 0) fns) w'.
Proof.
  induction fns as [|fn fns IH]; intros w w' H; simpl in H.
  - apply ret_inv in H as [_ ->]. apply went_refl.
  - apply bind_Ok_inv in H as ([] & w1 & H1 & H).
    apply bind_Ok_inv in H1 as (out & w2 & H1 & H2).
    apply run_Ok_inv in H1. apply ret_inv in H2 as [_ ->].
    apply IH in H. apply (went_trans _ _ _ _ _ H1 H).
Qed.

(** When it returns it ended with: the mount, the copies of the given
    files, the shell, the unmount. *)
Lemma install_layer_returns w w' :
  install_layer env conf w = (Ok (), w') ->
  exists before,
    session_events w w'
    = before
      ++ [Exec (mount_cmd (l1dir_of conf) (fs_dir conf "l2i" "foo") (work_dir conf "l2i" "foo")
                          l2i_mount) 0;
          Probe (l2i_mount </> "usr/bin/apt") true]
      ++ map (fun fn => Exec (copy_deb_cmd fn) 0) (extra_args conf)
      ++ [Exec shell_cmd 0; Exec (umount_cmd l2i_mount) 0].
Proof.
  unfold install_layer. cbv zeta. intros H.
  apply bind_Ok_inv in H as ([] & w4 & H4 & H).
  assert (Hpre : tracked w w4).
  { assert (K : keeps tracked
       (for_each [fs_dir conf "l2i" "foo"; work_dir conf "l2i" "foo"; mount_dir conf "l2i" "foo"]
                 (fun d => makedirs env d true))).
    { keeps_walk tracked_step. }
    specialize (K w). rewrite H4 in K. exact K. }
  destruct Hpre as [before Hpre].
  apply finally_Ok_inv in H as (w5 & Hbody & Hfin).
  apply umount_Ok_inv in Hfin.
  apply bind_Ok_inv in Hbody as ([] & w6 & Hm & Hbody). apply mount_Ok_inv in Hm.
  apply bind_Ok_inv in Hbody as ([] & w7 & Hi & Hbody). apply print_inv in Hi.
  apply bind_Ok_inv in Hbody as ([] & w8 & Hc & Hbody). apply copy_debs_return in Hc.
  apply bind_Ok_inv in Hbody as (out & w9 & Hs & Hbody). apply nspawn_Ok_inv in Hs.
  apply ret_inv in Hbody as [_ ->].
  exists before.
  pose proof (went_trans _ _ _ _ _ Hpre
               (went_trans _ _ _ _ _ Hm
                 (went_trans _ _ _ _ _ Hi
                   (went_trans _ _ _ _ _ Hc (went_trans _ _ _ _ _ Hs Hfin))))) as Hall.
  apply went_session in Hall. rewrite Hall. simpl. reflexivity.
Qed.

End Install.

Definition install_conf : conf_t :=
  {| action := Install; cachedir := "/var/cache/conbuilder"; codename := "sid";
     verbose := 0; extra_args := ["../hello_1.0-1_all.deb"]; export_dir := "";
     drop_capability := ""; system_call_filter := "" |}.

(** C9, for the installation of one package file on a cache that holds
    the base system, every tool succeeding.  [install] raises [TypeError]
    at the message that joins a text and the [Path] of the temporary
    layer: no directory is made, nothing is mounted, no file is copied and
    no shell is run; with no base system it raises the same error, in
    [create_l1].  The rest of [install], run on its own from the loop over
    the directories on, does what the claim says: it copies the file and
    runs the shell, and the package-install command line is not run. *)
Theorem install_stops_before_mount :
  let env := Scenario.all_fine in
  let conf := install_conf in
  let i := install env conf base_only in
  let l := install_layer env conf base_only in
  i.1 = Raise TypeError
  /\ session_events base_only i.2 = []
  /\ (install env conf Scenario.empty_cache).1 = Raise TypeError
  /\ session_events Scenario.empty_cache (install env conf Scenario.empty_cache).2 = []
  /\ l.1 = Ok ()
  /\ session_events base_only l.2
     = [Mkdir (fs_dir conf "l2i" "foo") true;
        Mkdir (work_dir conf "l2i" "foo") true;
        Mkdir (mount_dir conf "l2i" "foo") true;
        Exec (mount_cmd (l1dir_of conf) (fs_dir conf "l2i" "foo") (work_dir conf "l2i" "foo")
                        (l2i_mount conf)) 0;
        Probe (l2i_mount conf </> "usr/bin/apt") true;
        Exec (copy_deb_cmd conf "../hello_1.0-1_all.deb") 0;
        Exec (shell_cmd conf) 0;
        Exec (umount_cmd (l2i_mount conf)) 0]
  /\ List.existsb (fun e => match e with
                            | Exec cmd _ => String.eqb cmd (discarded_install_cmd conf)
                            | _ => false
                            end) (trace l.2) = false.
Proof. cbv zeta. repeat split; vm_compute; reflexivity. Qed.

(** ** Reuse of L2 (C4) *)

Section Reuse.

Variable env : environment.
Variable conf : conf_t.
Variable F : string.

(** The events that create the L2 layer of [F]: its content directory is
    made; the dependency tool really installs in it. *)
Definition is_l2_creation (e : event) : bool :=
  match e with
  | Mkdir p true => String.eqb p (fs_dir conf "l2" F)
  | _ => false
  end.

Definition is_l2_install (e : event) : bool :=
  match e with
  | Exec cmd _ => String.eqb cmd (install_cmd conf F)
  | _ => false
  end.

Definition l2_creations (d : list event) : nat := List.length (List.filter is_l2_creation d).
Definition l2_installs (d : list event) : nat := List.length (List.filter is_l2_install d).

Definition l2_untouched (e : event) : Prop := is_l2_creation e = false /\ is_l2_install e = false.

Lemma l2_untouched_counts d :
  Forall l2_untouched d -> l2_creations d = 0%nat /\ l2_installs d = 0%nat.
Proof.
  unfold l2_creations, l2_installs.
  induction 1 as [|e d [H1 H2] _ [IH1 IH2]]; simpl; [auto|].
  rewrite H1, H2. auto.
Qed.

End Reuse.

(** Two command lines, or two paths, that differ: unfold them, split on
    the options of [nspawn], and compare. *)
Ltac cmd_norm H :=
  unfold install_cmd, simulate_cmd, mount_l2_cmd, mount_l3_cmd, install_deps_cmd, extract_cmd,
    debootstrap_cmd, copy_source_cmd, buildpackage_cmd, export_cmd, mount_cmd, umount_cmd,
    nspawn_cmd in H;
  simpl in H;
  repeat match type of H with
         | context [if ?b then _ else _] => destruct b
         end.

Ltac differ :=
  apply String.eqb_neq;
  let H := fresh "H" in intros H; cmd_norm H; path_absurd H.

Ltac untouched :=
  constructor; [|constructor]; split; simpl;
  try reflexivity;
  repeat match goal with
         | |- context [match ?b with true => _ | false => _ end] => is_var b; destruct b
         end;
  try reflexivity; differ.

Section ReuseProofs.

Variable env : environment.
Variable conf : conf_t.
Variable F : string.

(** What [create_l2_layer] does when it returns would count as one
    creation and one installation. *)
Lemma create_l2_events_counts deps :
  l2_creations conf F (create_l2_events conf deps F) = 1%nat
  /\ l2_installs conf F (create_l2_events conf deps F) = 1%nat.
Proof.
  assert (H1 : String.eqb (work_dir conf "l2" F) (fs_dir conf "l2" F) = false) by differ.
  assert (H2 : String.eqb (mount_dir conf "l2" F) (fs_dir conf "l2" F) = false) by differ.
  assert (H3 : String.eqb (mount_l2_cmd conf F) (install_cmd conf F) = false) by differ.
  assert (H4 : String.eqb (umount_cmd (mount_dir conf "l2" F)) (install_cmd conf F) = false)
    by differ.
  unfold l2_creations, l2_installs, create_l2_events.
  cbn [List.filter is_l2_creation is_l2_install].
  rewrite !String.eqb_refl, H1, H2, H3, H4. auto.
Qed.

(** No build session, whatever the cache and the outcome, makes the L2
    content directory of [F] or runs the real installation in it. *)
Lemma build_l2_untouched : emits any_world (build env conf) (Forall (l2_untouched conf F)).
Proof.
  unfold build, build_fingerprint, build_layers, build_l3, build_export, create_l1, create_l2,
    extract_build_dependencies.
  cbv zeta. emits_walk untouched.
Qed.

(** With the L2 directory of [F] in place, the rest of [build] begins by
    mounting that L2. *)
Lemma layers_mount_first deps :
  emits (has_dir (fs_dir conf "l2" F))
        (build_layers env conf deps F ≫= build_export env conf F)
        (fun d => exists rc rest, d = Exec (mount_l2_cmd conf F) rc :: rest).
Proof.
  eapply emits_mono.
  - apply emits_bind_gen with (Q := anything).
    + unfold build_layers. cbv zeta.
      apply emits_print_then with (l := ["[L1] Ready"]); [typeclasses eauto | reflexivity |].
      apply emits_exists_known; [intros w Hw; exact Hw|]. simpl.
      apply emits_ret_then.
      apply emits_finally_gen with (Q := anything).
      * apply emits_bind_gen with (Q := anything).
        -- apply mount_emits. typeclasses eauto.
        -- intros _. unfold build_l3. cbv zeta. emits_walk ltac:(exact I).
      * emits_walk ltac:(exact I).
    + intros success. unfold build_export. cbv zeta. emits_walk ltac:(exact I).
  - intros d (d1 & d2 & -> & (b1 & b2 & -> & (m1 & m2 & -> & (rc & tl & -> & _) & _) & _) & _).
    exists rc. eexists. simpl. reflexivity.
Qed.

End ReuseProofs.

(** C4, for two builds in a row of the same source tree on a cache that
    holds the base system and no L2, every tool succeeding.  The first
    build computes the fingerprint and raises [TypeError] in [create_l2],
    at the message that joins a text and the [Path] of the L2 directory,
    before [os.makedirs]: the L2 content directory is not made and the
    real installation is not run.  The second build finds no L2 either and
    fails in the same way: over the two sessions the L2 layer is created
    zero times, and no L2 is ever mounted. *)
Theorem two_builds_create_no_l2 :
  let env := Scenario.all_fine in
  let conf := Scenario.sid in
  let F := Scenario.l2_hash in
  let w1 := (build env conf base_only).2 in
  let w2 := (build env conf w1).2 in
  (build_fingerprint env conf base_only).1 = Ok (libs, F)
  /\ (build env conf base_only).1 = Raise TypeError
  /\ session_events base_only w1 = [Exec (simulate_cmd conf) 0]
  /\ (fs_dir conf "l2" F ∉ dirs w1)
  /\ (build_fingerprint env conf w1).1 = Ok (libs, F)
  /\ (build env conf w1).1 = Raise TypeError
  /\ session_events w1 w2 = [Exec (simulate_cmd conf) 0]
  /\ (fs_dir conf "l2" F ∉ dirs w2)
  /\ l2_creations conf F (session_events base_only w2) = 0%nat
  /\ l2_installs conf F (session_events base_only w2) = 0%nat
  /\ mount_calls (session_events base_only w2) = 0%nat.
Proof.
  cbv zeta. repeat split; try (vm_compute; reflexivity);
    intros Hin; apply (bool_decide_pack _) in Hin; vm_compute in Hin; exact Hin.
Qed.

(** ** The build workspace L3 (C10) *)

(** *** The fingerprint as a directory name *)

Definition is_lower_hex (c : ascii) : bool := PyRepr.contains c "0123456789abcdef".

Lemma hex_digit_lower n : (n < 16)%nat -> is_lower_hex (PyRepr.hex_digit n) = true.
Proof.
  intros H. do 16 (destruct n as [|n]; [reflexivity|]). lia.
Qed.

Lemma byte_nibbles x :
  let b := Z.land x 255 in
  is_lower_hex (PyRepr.hex_digit (Z.to_nat (b / 16))) = true
  /\ is_lower_hex (PyRepr.hex_digit (Z.to_nat (b mod 16))) = true.
Proof.
  intros b. assert (Hb : 0 <= b < 256).
  { subst b. change 255 with (Z.ones 8). rewrite Z.land_ones by lia.
    apply Z.mod_pos_bound. lia. }
  split; apply hex_digit_lower.
  - assert (0 <= b / 16 < 16) by (split; [apply Z.div_pos; lia | apply Z.div_lt_upper_bound; lia]).
    lia.
  - assert (0 <= b mod 16 < 16) by (apply Z.mod_pos_bound; lia). lia.
Qed.

Lemma to_hex_cons b bs :
  Sha224.to_hex (b :: bs)
  = String (PyRepr.hex_digit (Z.to_nat (b / 16)))
      (String (PyRepr.hex_digit (Z.to_nat (b mod 16))) (Sha224.to_hex bs)).
Proof. reflexivity. Qed.

(** *** What the export patterns select *)






(** Pathname expansion of [sh] (the shell [Popen(cmd, shell=True)]
    starts), for a pattern made of ordinary characters, [*] and [?]: [*]
    stands for any run of characters other than [/], [?] for one of
    them, and neither matches the period that begins a file name; the
    other characters stand for themselves. *)
Definition starts_with_dot (s : string) : bool :=
  match s with
  | String c _ => Ascii.eqb c "."
  | EmptyString => false
  end.

(** [*], followed by what [k] matches. *)
Fixpoint glob_star (k : string -> bool) (s : string) : bool :=
  k s
  || match s with
     | String d s' => negb (Ascii.eqb d "/") && glob_star k s'
     | EmptyString => false
     end.

(** [lead]: the next character of the path begins a file name. *)
Fixpoint glob_from (pat : string) : bool -> string -> bool :=
  match pat with
  | EmptyString => fun _ s => match s with EmptyString => true | _ => false end
  | String c pat' =>
      if Ascii.eqb c "*" then
        fun lead s =>
          if (lead && starts_with_dot s)%bool then false
          else glob_star (glob_from pat' false) s
      else if Ascii.eqb c "?" then
        fun lead s =>
          match s with
          | String d s' =>
              negb (Ascii.eqb d "/") && negb (lead && Ascii.eqb d ".")
              && glob_from pat' false s'
          | EmptyString => false
          end
      else
        fun _ s =>
          match s with
          | String d s' => Ascii.eqb c d && glob_from pat' (Ascii.eqb c "/") s'
          | EmptyString => false
          end
  end.

(** Whether the path [name] is among the expansions of the word [pat].
    Bracket expressions and backslashes are not modelled: there is no
    answer for a pattern that has one. *)
Definition sh_glob (pat name : string) : option bool :=
  if (PyRepr.contains "[" pat || PyRepr.contains "\" pat)%bool then None
  else Some (glob_from pat true name).



Example sh_glob_ex :
  sh_glob "/c/l3/fs/ab/*.deb" "/c/l3/fs/ab/hello_1.0-1_all.deb" = Some true
  /\ sh_glob "/c/l3/fs/ab/*.deb" "/c/l3/fs/ab/hello_1.0.dsc" = Some false
  /\ sh_glob "/c/l3/fs/ab/*.deb" "/c/l3/fs/ab/sub/hello.deb" = Some false
  /\ sh_glob "/c/l3/fs/ab/*.deb" "/c/l3/fs/ab/.hidden.deb" = Some false
  /\ sh_glob "/c/l3/fs/ab/*.deb" "/c/l3/fs/ab/.deb" = Some false
  /\ sh_glob "/c/l3/fs/a[b]/*.deb" "/c/l3/fs/ab/hello.deb" = None.
Proof. repeat split. Qed.











(** *** What a build session is made of *)

Section Workspace.

Variable env : environment.
Variable conf : conf_t.

(** The events of a build session: the simulated dependency run, and for
    a fingerprint [F] the mount of L2 and of L3 with their checks, the
    copy of the source tree into the L3 mount, the package build, the two
    unmounts and the export of each extension.  There is no [Mkdir] and no
    [Write] among them, and no command line of the program's own that
    removes or empties a directory (the arguments of the package build are
    those of the configuration, as given). *)
Inductive build_event : event -> Prop :=
| ev_simulate rc : build_event (Exec (simulate_cmd conf) rc)
| ev_mount_l2 F rc : build_event (Exec (mount_l2_cmd conf F) rc)
| ev_check_l2 F b : build_event (Probe (mount_dir conf "l2" F </> "usr/bin/apt") b)
| ev_mount_l3 F rc : build_event (Exec (mount_l3_cmd conf F) rc)
| ev_check_l3 F b : build_event (Probe (mount_dir conf "l3" F </> "usr/bin/apt") b)
| ev_copy_source F rc : build_event (Exec (copy_source_cmd (mount_dir conf "l3" F)) rc)
| ev_buildpackage F rc :
    build_event (Exec (nspawn_cmd (buildpackage_cmd (mount_dir conf "l3" F) (extra_args conf))
                                  (drop_capability conf) (system_call_filter conf)) rc)
| ev_umount_l3 F rc : build_event (Exec (umount_cmd (mount_dir conf "l3" F)) rc)
| ev_umount_l2 F rc : build_event (Exec (umount_cmd (mount_dir conf "l2" F)) rc)
| ev_export F e rc :
    e ∈ exts ->
    build_event (Exec (export_cmd (fs_dir conf "l3" F) e (abspath_env env (export_dir conf))) rc).

Ltac pinned :=
  constructor; [|constructor];
  first [ apply ev_simulate | apply ev_mount_l2 | apply ev_check_l2 | apply ev_mount_l3
        | apply ev_check_l3 | apply ev_copy_source | apply ev_buildpackage
        | apply ev_umount_l3 | apply ev_umount_l2
        | apply ev_export; unfold exts; set_solver ].

(** Every event of every build session, whatever its outcome. *)
Lemma build_pinned : emits any_world (build env conf) (Forall build_event).
Proof.
  unfold build, build_fingerprint, build_layers, build_l3, build_export, create_l1, create_l2,
    extract_build_dependencies, exts.
  cbv zeta. cbn [for_each]. emits_walk pinned.
Qed.





End Workspace.


(** A cache in which an earlier build of the same fingerprint left a
    package in the L3 content directory. *)
Definition cache_with_old_package : world := {|
  dirs := list_to_set [l1dir_of Scenario.sid;
                       fs_dir Scenario.sid "l2" Scenario.l2_hash;
                       work_dir Scenario.sid "l2" Scenario.l2_hash;
                       mount_dir Scenario.sid "l2" Scenario.l2_hash;
                       fs_dir Scenario.sid "l3" Scenario.l2_hash;
                       work_dir Scenario.sid "l3" Scenario.l2_hash;
                       mount_dir Scenario.sid "l3" Scenario.l2_hash];
  files := {[ fs_dir Scenario.sid "l3" Scenario.l2_hash </> "hello_0.9-1_all.deb" := "old" ]};
  trace := []; console := []
|}.


(** * Further properties of the code *)

(** ** The order of the dependency list *)

Lemma str_compare_trans a b c :
  String.compare a b = Lt -> String.compare b c = Lt -> String.compare a c = Lt.
Proof.
  intros H1 H2.
  apply OrderedTypeEx.String_as_OT.cmp_lt.
  apply OrderedTypeEx.String_as_OT.cmp_lt in H1, H2.
  exact (OrderedTypeEx.String_as_OT.lt_trans _ _ _ H1 H2).
Qed.

Lemma str_compare_refl a : String.compare a a = Eq.
Proof. apply OrderedTypeEx.String_as_OT.cmp_eq. reflexivity. Qed.

#[global] Instance dep_le_total : Total dep_le.
Proof.
  intros [n1 v1] [n2 v2]. unfold dep_le, dep_leb, str_leb. simpl.
  rewrite (String.compare_antisym n2 n1), (String.compare_antisym v2 v1).
  destruct (String.compare n1 n2); simpl; auto.
  destruct (String.compare v1 v2); simpl; auto.
Qed.

#[global] Instance dep_le_trans : Transitive dep_le.
Proof.
  intros [n1 v1] [n2 v2] [n3 v3]. unfold dep_le, dep_leb, str_leb. simpl.
  destruct (String.compare n1 n2) eqn:E12; try discriminate;
    destruct (String.compare n2 n3) eqn:E23; try discriminate; intros H1 H2.
  - apply String.compare_eq_iff in E12, E23. subst. rewrite str_compare_refl.
    destruct (String.compare v1 v2) eqn:F12; try discriminate;
      destruct (String.compare v2 v3) eqn:F23; try discriminate.
    + apply String.compare_eq_iff in F12, F23. subst. rewrite str_compare_refl. reflexivity.
    + apply String.compare_eq_iff in F12. subst. rewrite F23. reflexivity.
    + apply String.compare_eq_iff in F23. subst. rewrite F12. reflexivity.
    + rewrite (str_compare_trans _ _ _ F12 F23). reflexivity.
  - apply String.compare_eq_iff in E12. subst. rewrite E23. reflexivity.
  - apply String.compare_eq_iff in E23. subst. rewrite E12. reflexivity.
  - rewrite (str_compare_trans _ _ _ E12 E23). reflexivity.
Qed.

#[global] Instance dep_le_antisym : AntiSymm eq dep_le.
Proof.
  intros [n1 v1] [n2 v2]. unfold dep_le, dep_leb, str_leb. simpl.
  rewrite (String.compare_antisym n2 n1), (String.compare_antisym v2 v1).
  destruct (String.compare n1 n2) eqn:E; simpl; try discriminate.
  apply String.compare_eq_iff in E. subst.
  destruct (String.compare v1 v2) eqn:F; simpl; try discriminate.
  apply String.compare_eq_iff in F. subst. reflexivity.
Qed.

(** When the parser returns, every line was accepted or skipped, and the
    set it sorted is the set of the pairs of the accepted lines. *)
Lemma parse_build_deps_Ok_inv out deps :
  _parse_build_deps out = Ok deps ->
  forallb line_ok out = true /\ deps = sorted_set (⋃ (parsed_of <$> out)).
Proof.
  unfold _parse_build_deps. intros H.
  destruct (forallb line_ok out) eqn:E.
  - split; [reflexivity|].
    rewrite (parse_loop_ok out ∅ E) in H. injection H as <-.
    f_equal. set_solver.
  - destruct (parse_loop_raise out ∅ E) as [e He]. rewrite He in H. discriminate.
Qed.

(** X1. The list [_parse_build_deps] returns is in increasing order of
    (name, version) and holds no pair twice; sorting it again, as
    [extract_build_dependencies] does before hashing, changes nothing. *)
Theorem parse_result_sorted (out : list string) (deps : list dep) :
  _parse_build_deps out = Ok deps ->
  StronglySorted dep_le deps /\ NoDup deps /\ sorted deps = deps.
Proof.
  intros H. apply parse_build_deps_Ok_inv in H as [_ ->].
  unfold sorted_set, sorted.
  assert (Hs : StronglySorted dep_le (merge_sort dep_le (elements (⋃ (parsed_of <$> out)))))
    by (apply StronglySorted_merge_sort; apply _).
  split; [exact Hs|]. split.
  - rewrite merge_sort_Permutation. apply NoDup_elements.
  - apply (StronglySorted_unique dep_le).
    + apply StronglySorted_merge_sort; apply _.
    + exact Hs.
    + apply merge_sort_Permutation.
Qed.

Lemma parse_result_sorted_witness :
  StronglySorted dep_le [("bar", "2.0"); ("foo", "1.2-3")]
  /\ NoDup [("bar", "2.0"); ("foo", "1.2-3")]
  /\ sorted [("bar", "2.0"); ("foo", "1.2-3")] = [("bar", "2.0"); ("foo", "1.2-3")].
Proof.
  apply (parse_result_sorted
           ["Inst foo (1.2-3 Debian:unstable [amd64]) []"; "Inst bar (2.0 Debian:unstable [amd64])";
            "Inst foo (1.2-3 Debian:unstable [amd64]) []"]).
  vm_compute. reflexivity.
Defined.

(** X2. What the parser returns is exactly what the accepted lines give:
    a pair is in the list if and only if some line of the output parses to
    it. *)
Theorem parse_result_elements (out : list string) (deps : list dep) :
  _parse_build_deps out = Ok deps ->
  forall d, d ∈ deps <-> exists line, line ∈ out /\ parse_line line = Some (Ok d).
Proof.
  intros H d. apply parse_build_deps_Ok_inv in H as [_ ->].
  unfold sorted_set, sorted. rewrite merge_sort_Permutation, elem_of_elements, elem_of_union_list.
  split.
  - intros (X & HX & Hd). apply list_elem_of_fmap in HX as (line & -> & Hline).
    exists line. split; [exact Hline|].
    unfold parsed_of in Hd. destruct (parse_line line) as [[d'|e]|]; set_solver.
  - intros (line & Hline & Hp). exists (parsed_of line). split.
    + apply list_elem_of_fmap. exists line. auto.
    + unfold parsed_of. rewrite Hp. set_solver.
Qed.

Lemma parse_result_elements_witness :
  ("foo", "1.2-3") ∈ [("bar", "2.0"); ("foo", "1.2-3")]
  <-> exists line,
        line ∈ ["Inst foo (1.2-3 Debian:unstable [amd64]) []";
                 "Inst bar (2.0 Debian:unstable [amd64])"]
        /\ parse_line line = Some (Ok ("foo", "1.2-3")).
Proof.
  apply (parse_result_elements
           ["Inst foo (1.2-3 Debian:unstable [amd64]) []"; "Inst bar (2.0 Debian:unstable [amd64])"]).
  vm_compute. reflexivity.
Defined.

(** X3. The parser stops at the first line it cannot parse and raises the
    exception of that line: the lines after it are not looked at. *)
Theorem parse_first_error (before after : list string) (line : string) (e : exn) :
  forallb line_ok before = true ->
  parse_line line = Some (Raise e) ->
  _parse_build_deps (before ++ line :: after) = Raise e.
Proof.
  intros Hb Hl. unfold _parse_build_deps.
  assert (H : forall deps, parse_loop (before ++ line :: after) deps = Raise e).
  { induction before as [|b rest IH]; intros deps; simpl.
    - rewrite Hl. reflexivity.
    - simpl in Hb. apply andb_prop in Hb as [Hb1 Hb2]. unfold line_ok in Hb1.
      destruct (parse_line b) as [[d|e']|]; try discriminate; apply IH; assumption. }
  rewrite H. reflexivity.
Qed.

Lemma parse_first_error_witness :
  _parse_build_deps (["Reading package lists..."; "Inst bar (2.0 Debian:unstable [amd64])"]
                     ++ "Inst foo" :: ["Inst baz 3.0 ..."])
  = Raise ValueError.
Proof.
  apply parse_first_error; vm_compute; reflexivity.
Defined.

(** ** The lines the parser accepts *)

Lemma prefix_app p : forall s, String.prefix p s = true <-> exists r, s = (p ++ r)%string.
Proof.
  induction p as [|c p IH]; intros s.
  - split; [intros _; exists s; reflexivity | intros _; destruct s; reflexivity].
  - destruct s as [|d s]; simpl; [split; [discriminate | intros [r Hr]; discriminate]|].
    destruct (ascii_dec c d) as [->|Hne].
    + rewrite IH. split; intros [r Hr]; exists r; [rewrite Hr; reflexivity|].
      injection Hr as ->. reflexivity.
    + split; [discriminate|]. intros [r Hr]. injection Hr as -> _. contradiction.
Qed.

Lemma break_Some sep s a b :
  PyStr.break sep s = Some (a, b) ->
  s = (a ++ String sep b)%string /\ PyRepr.contains sep a = false.
Proof.
  revert a. induction s as [|c s IH]; intros a H; simpl in H; [discriminate|].
  destruct (Ascii.eqb c sep) eqn:E.
  - injection H as <- <-. apply Ascii.eqb_eq in E. subst. auto.
  - destruct (PyStr.break sep s) as [[a' b']|]; [|discriminate].
    injection H as <- <-. destruct (IH a' eq_refl) as [-> Hc].
    split; [reflexivity|]. simpl. rewrite Ascii.eqb_sym, E. exact Hc.
Qed.

Lemma break_app sep a b :
  PyRepr.contains sep a = false -> PyStr.break sep (a ++ String sep b) = Some (a, b).
Proof.
  induction a as [|c a IH]; simpl; intros H.
  - rewrite Ascii.eqb_refl. reflexivity.
  - apply orb_false_elim in H as [Hc Ha]. rewrite Ascii.eqb_sym, Hc, (IH Ha). reflexivity.
Qed.

(** X4. The lines [_parse_build_deps] accepts are exactly the lines
    [Inst <name> (<version> <rest>] with no space in the name nor in the
    version and a version that is not empty: the pair is made of the text
    between the first two spaces and the text between the parenthesis
    and the third space; what follows the third space is not read. *)
Theorem parse_line_accepts (line name ver : string) :
  parse_line line = Some (Ok (name, ver))
  <-> exists rest,
        line = ("Inst " ++ name ++ " (" ++ ver ++ " " ++ rest)%string
        /\ PyRepr.contains " " name = false
        /\ PyRepr.contains " " ver = false
        /\ ver <> ""%string.
Proof.
  unfold parse_line, Inst_prefix, PyStr.startswith. split.
  - destruct (String.prefix "Inst " line) eqn:Hp; [|discriminate]. simpl negb. cbv iota.
    apply prefix_app in Hp as [l1 ->].
    change (PyStr.split " " 3 ("Inst " ++ l1))
      with ("Inst"%string :: PyStr.split " " 2 l1).
    cbn [PyStr.split].
    destruct (PyStr.break " " l1) as [[p l2]|] eqn:E1; [|discriminate].
    destruct (PyStr.break " " l2) as [[v l3]|] eqn:E2; [|discriminate].
    apply break_Some in E1 as [-> Hp]. apply break_Some in E2 as [-> Hv].
    destruct (String.prefix "(" v) eqn:Es; simpl negb; cbv iota; [|discriminate].
    apply prefix_app in Es as [v' ->]. cbn [PyStr.tail String.append].
    destruct (String.eqb v' "") eqn:Ev; [discriminate|].
    intros H. injection H as <- <-.
    exists l3. split; [reflexivity|]. split; [exact Hp|].
    split; [simpl in Hv; exact Hv|].
    intros ->. discriminate.
  - intros (rest & -> & Hn & Hv & Hne).
    assert (H1 : String.prefix "Inst " ("Inst " ++ name ++ " (" ++ ver ++ " " ++ rest) = true)
      by (apply prefix_app; eexists; reflexivity).
    rewrite H1. simpl negb. cbv iota.
    change (PyStr.split " " 3 ("Inst " ++ name ++ " (" ++ ver ++ " " ++ rest))
      with ("Inst"%string :: PyStr.split " " 2 (name ++ String " " (String "(" ver ++ String " " rest))).
    cbn [PyStr.split]. rewrite (break_app " " name _ Hn).
    rewrite (break_app " " (String "(" ver) rest) by exact Hv.
    assert (H2 : String.prefix "(" (String "(" ver) = true)
      by (apply prefix_app; eexists; reflexivity).
    rewrite H2. simpl negb. cbv iota. cbn [PyStr.tail].
    destruct (String.eqb ver "") eqn:E; [apply String.eqb_eq in E; contradiction|].
    reflexivity.
Qed.

Lemma parse_line_accepts_witness :
  parse_line "Inst gettext (0.19.8.1-4 Debian:unstable [amd64]) []"
  = Some (Ok ("gettext", "0.19.8.1-4")).
Proof.
  apply (proj2 (parse_line_accepts "Inst gettext (0.19.8.1-4 Debian:unstable [amd64]) []"
                                   "gettext" "0.19.8.1-4")).
  exists "Debian:unstable [amd64]) []"%string. repeat split; try reflexivity. discriminate.
Defined.

(** Number of occurrences of a character. *)
Fixpoint occurrences (c : ascii) (s : string) : nat :=
  match s with
  | EmptyString => 0
  | String d r => (if Ascii.eqb c d then 1 else 0) + occurrences c r
  end.

Lemma occurrences_none c s : PyRepr.contains c s = false -> occurrences c s = 0%nat.
Proof.
  induction s as [|d s IH]; simpl; [reflexivity|].
  intros H. apply orb_false_elim in H as [-> H]. auto.
Qed.

Lemma occurrences_app c a b : occurrences c (a ++ b) = (occurrences c a + occurrences c b)%nat.
Proof. induction a as [|d a IH]; simpl; [reflexivity|]. rewrite IH. lia. Qed.

Lemma break_None sep s : PyStr.break sep s = None -> occurrences sep s = 0%nat.
Proof.
  induction s as [|c s IH]; simpl; [reflexivity|].
  destruct (Ascii.eqb c sep) eqn:E; [discriminate|].
  rewrite Ascii.eqb_sym, E.
  destruct (PyStr.break sep s) as [[a b]|]; [discriminate|]. auto.
Qed.

(** [split] cuts at the separators it finds, up to [maxsplit] of them. *)
Lemma split_length sep n : forall s,
  List.length (PyStr.split sep n s) = S (Nat.min n (occurrences sep s)).
Proof.
  induction n as [|n IH]; intros s; simpl; [reflexivity|].
  destruct (PyStr.break sep s) as [[a b]|] eqn:E.
  - apply break_Some in E as [-> Ha]. simpl. rewrite IH, occurrences_app, (occurrences_none _ _ Ha).
    simpl. rewrite Ascii.eqb_refl. reflexivity.
  - apply break_None in E. rewrite E. reflexivity.
Qed.

(** X5. A line that starts with [Inst ] and has fewer than three spaces
    cannot be unpacked into four fields: the parser raises [ValueError]
    on it, and on no other line. *)
Theorem parse_line_value_error (line : string) :
  parse_line line = Some (Raise ValueError)
  <-> PyStr.startswith "Inst " line = true /\ (occurrences " " line < 3)%nat.
Proof.
  unfold parse_line, Inst_prefix.
  destruct (PyStr.startswith "Inst " line) eqn:Hp; simpl negb; cbv iota;
    [|split; [discriminate | intros [? _]; discriminate]].
  pose proof (split_length " " 3 line) as Hlen.
  destruct (PyStr.split " " 3 line) as [|f1 [|f2 [|f3 [|f4 [|f5 r]]]]]; cbn [List.length] in Hlen.
  - discriminate.
  - split; [intros _; split; [reflexivity | lia] | reflexivity].
  - split; [intros _; split; [reflexivity | lia] | reflexivity].
  - split; [intros _; split; [reflexivity | lia] | reflexivity].
  - split.
    + destruct (negb (PyStr.startswith "(" f3)); [discriminate|].
      destruct (String.eqb (PyStr.tail f3) ""); discriminate.
    + intros [_ H]. lia.
  - lia.
Qed.

Lemma parse_line_value_error_witness :
  parse_line "Inst foo (1.0)" = Some (Raise ValueError).
Proof.
  apply (proj2 (parse_line_value_error "Inst foo (1.0)")).
  split; [reflexivity | vm_compute; lia].
Defined.

(** ** The form of the fingerprint *)

(** X6. Whatever the dependencies, the fingerprint is made of ten
    characters, each a digit or a letter from [a] to [f]: it has no [/]
    and can name a directory of the cache. *)
Theorem fingerprint_shape (deps : list dep) :
  String.length (fingerprint deps) = 10%nat
  /\ forallb is_lower_hex (list_ascii_of_string (fingerprint deps)) = true
  /\ PyRepr.contains "/" (fingerprint deps) = false.
Proof.
  unfold fingerprint, Sha224.hexdigest. cbv zeta.
  destruct (Sha224.blocks _ _ _) as [[[[[[[a b] c] d] e] f] g] h].
  cbn [flat_map Sha224.be_bytes app].
  rewrite !to_hex_cons.
  cbn [String.substring].
  repeat match goal with
         | |- context [Z.land ?x 255] =>
             let n := fresh "n" in let Hn := fresh "Hn" in
             pose proof (byte_nibbles x) as Hn; cbv zeta in Hn;
             set (n := Z.land x 255) in *; clearbody n
         end.
  repeat match goal with H : _ /\ _ |- _ => destruct H end.
  assert (Hslash : forall c, is_lower_hex c = true -> Ascii.eqb "/" c = false).
  { intros ch Hc. destruct (Ascii.eqb "/" ch) eqn:E; [|reflexivity].
    apply Ascii.eqb_eq in E. subst ch. discriminate Hc. }
  split; [reflexivity|]. split.
  - cbn [list_ascii_of_string forallb].
    repeat match goal with H : is_lower_hex _ = true |- _ => rewrite H; clear H end.
    reflexivity.
  - cbn [PyRepr.contains].
    repeat match goal with
           | H : is_lower_hex _ = true |- _ => rewrite (Hslash _ H); clear H
           end.
    reflexivity.
Qed.


(** ** Repeated lines *)

Lemma forallb_line_ok_same l1 l2 :
  (forall x, x ∈ l1 <-> x ∈ l2) -> forallb line_ok l1 = forallb line_ok l2.
Proof.
  intros H. apply eq_true_iff_eq. rewrite !forallb_forall.
  split; intros Hall x Hx; apply Hall; apply list_elem_of_In; apply list_elem_of_In in Hx;
    apply H; assumption.
Qed.

Lemma parsed_union_same l1 l2 :
  (forall x, x ∈ l1 <-> x ∈ l2) -> ⋃ (parsed_of <$> l1) = ⋃ (parsed_of <$> l2).
Proof.
  intros H. apply set_eq. intros d. rewrite !elem_of_union_list.
  split; intros (X & HX & Hd); apply list_elem_of_fmap in HX as (line & -> & Hline);
    exists (parsed_of line); (split; [|exact Hd]);
    apply list_elem_of_fmap; exists line; (split; [reflexivity|]); apply H; assumption.
Qed.

(** X7. Only the set of the lines of the tool output counts: two outputs
    with the same lines, in any order and any number of copies, both
    parse to the same dependency list and the same fingerprint, or both
    fail to parse. *)
Theorem fingerprint_ignores_repeats (l1 l2 : list string) :
  (forall x, x ∈ l1 <-> x ∈ l2) ->
  (forall r, fingerprint_of_output l1 = Ok r -> fingerprint_of_output l2 = Ok r)
  /\ is_ok (fingerprint_of_output l1) = is_ok (fingerprint_of_output l2).
Proof.
  intros Hs. unfold fingerprint_of_output, _parse_build_deps.
  destruct (forallb line_ok l1) eqn:E1.
  - rewrite (parse_loop_ok l1) by assumption.
    rewrite (forallb_line_ok_same _ _ Hs) in E1.
    rewrite (parse_loop_ok l2) by assumption.
    rewrite (parsed_union_same _ _ Hs). split; [auto | reflexivity].
  - destruct (parse_loop_raise l1 ∅ E1) as [e1 ->].
    rewrite (forallb_line_ok_same _ _ Hs) in E1.
    destruct (parse_loop_raise l2 ∅ E1) as [e2 ->].
    split; [intros r Hr; discriminate | reflexivity].
Qed.

Lemma fingerprint_ignores_repeats_witness :
  fingerprint_of_output
    ["Inst libbar (2.0 Debian:unstable [amd64])"; "Inst libfoo (1.0 Debian:unstable [amd64])";
     "Inst libbar (2.0 Debian:unstable [amd64])"]
  = Ok ([("libbar", "2.0"); ("libfoo", "1.0")], "284ba56263").
Proof.
  apply (proj1 (fingerprint_ignores_repeats
    ["Inst libfoo (1.0 Debian:unstable [amd64])"; "Inst libbar (2.0 Debian:unstable [amd64])"]
    ["Inst libbar (2.0 Debian:unstable [amd64])"; "Inst libfoo (1.0 Debian:unstable [amd64])";
     "Inst libbar (2.0 Debian:unstable [amd64])"]
    ltac:(intros x; rewrite !elem_of_cons, !elem_of_nil; tauto))).
  vm_compute. reflexivity.
Defined.

(** ** Outcome of [run], [mount] and the [finally] clauses *)

(** The lines [run] collects: those read before the first empty read,
    each stripped of its trailing white space and decoded; nothing when
    one of them is not UTF-8. *)
Fixpoint lines_read (raw : list string) : option (list string) :=
  match raw with
  | [] => Some []
  | line :: rest =>
      if String.eqb line "" then Some []
      else if Utf8.valid (PyStr.rstrip line) then
        match lines_read rest with
        | Some l => Some (PyStr.rstrip line :: l)
        | None => None
        end
      else None
  end.

(** What [run] makes of the answer of the process: its exit status [rc],
    its output [raw], what it wrote on stderr [err]. *)
Definition run_answer (cmd : string) (rc : Z) (raw : list string) (err : string)
  : result (list string) :=
  match lines_read raw with
  | None => Raise UnicodeDecodeError
  | Some out =>
      if rc =? 0 then Ok out
      else if Utf8.valid err then Raise (CommandError cmd rc)
      else Raise UnicodeDecodeError
  end.

Section Outcome.

Variable env : environment.

Lemma read_loop_result raw quiet : forall out w,
  exists w',
    read_loop raw quiet out w
    = (match lines_read raw with
       | Some l => Ok (out ++ l)
       | None => Raise UnicodeDecodeError
       end, w')
    /\ went w [] w'.
Proof.
  induction raw as [|line rest IH]; intros out w; simpl.
  - exists w. rewrite app_nil_r. split; [reflexivity | apply went_refl].
  - destruct (String.eqb line "").
    + exists w. rewrite app_nil_r. split; [reflexivity | apply went_refl].
    + unfold mbind, M_bind, decode.
      destruct (Utf8.valid (PyStr.rstrip line)); simpl;
        [|exists w; split; [reflexivity | apply went_refl]].
      destruct quiet; simpl.
      * destruct (IH (out ++ [PyStr.rstrip line]) w) as (w' & -> & Hw).
        exists w'. split; [|exact Hw].
        destruct (lines_read rest); [rewrite <- app_assoc|]; reflexivity.
      * destruct (IH (out ++ [PyStr.rstrip line])
                     (say Info (PyStr.rstrip line) w)) as (w' & -> & Hw).
        exists w'. split; [destruct (lines_read rest); [rewrite <- app_assoc|]; reflexivity|].
        change (@nil event) with (@nil event ++ []).
        eapply went_trans; [apply went_console | exact Hw].
Qed.

Lemma went_Exec w cmd rc w' : went (log (Exec cmd rc) w) [] w' -> went w [Exec cmd rc] w'.
Proof.
  intros H. change [Exec cmd rc] with ([Exec cmd rc] ++ []).
  eapply went_trans; [apply went_log; exact I | exact H].
Qed.

Lemma run_result cmd quietcmd quiet w :
  let rc := (popen_env env (trace w) cmd).1.1 in
  let raw := (popen_env env (trace w) cmd).1.2 in
  let err := (popen_env env (trace w) cmd).2 in
  went w [Exec cmd rc] (run env cmd quietcmd quiet w).2
  /\ (run env cmd quietcmd quiet w).1 = run_answer cmd rc raw err.
Proof.
  intros rc raw err. unfold run, run_answer, mbind, M_bind.
  assert (H1 : exists w1, (if quietcmd then mret () else info [Str cmd]) w = (Ok (), w1)
                          /\ trace w1 = trace w /\ went w [] w1).
  { destruct quietcmd.
    - exists w. split; [reflexivity|]. split; [reflexivity | apply went_refl].
    - eexists. split; [reflexivity|]. split; [reflexivity | apply went_console]. }
  destruct H1 as (w1 & -> & Ht & Hw1).
  unfold popen. rewrite Ht. subst rc raw err.
  destruct (popen_env env (trace w) cmd) as [[rc raw] err]. simpl fst. simpl snd.
  destruct (read_loop_result raw quiet [] (log (Exec cmd rc) w1)) as (w3 & -> & Hw3).
  assert (Hall : went w [Exec cmd rc] w3).
  { change [Exec cmd rc] with ([] ++ [Exec cmd rc]).
    eapply went_trans; [exact Hw1 | apply went_Exec; exact Hw3]. }
  destruct (lines_read raw) as [out|]; [|split; [exact Hall | reflexivity]].
  simpl app.
  destruct (rc =? 0); simpl; [split; [exact Hall | reflexivity]|].
  unfold decode. destruct (Utf8.valid err); simpl.
  - split; [|reflexivity].
    change [Exec cmd rc] with ([Exec cmd rc] ++ []).
    eapply went_trans; [exact Hall|].
    change (@nil event) with (@nil event ++ [] ++ []).
    eapply went_trans; [apply went_console|].
    eapply went_trans; apply went_console.
  - split; [|reflexivity].
    change [Exec cmd rc] with ([Exec cmd rc] ++ []).
    eapply went_trans; [exact Hall | apply went_console].
Qed.

End Outcome.

(** X8. [run] starts exactly one process.  When a line of its output,
    read before the first empty read, is not UTF-8 it raises
    [UnicodeDecodeError]; otherwise it returns these lines, stripped of
    trailing white space, exactly when the exit status is 0, and with
    another status it raises the error that carries the command line and
    the status, or [UnicodeDecodeError] when what the process wrote on
    stderr is not UTF-8. *)
Theorem run_outcome (env : environment) (cmd : string) (quietcmd quiet : bool) (w : world) :
  let rc := (popen_env env (trace w) cmd).1.1 in
  let raw := (popen_env env (trace w) cmd).1.2 in
  let err := (popen_env env (trace w) cmd).2 in
  session_events w (run env cmd quietcmd quiet w).2 = [Exec cmd rc]
  /\ (run env cmd quietcmd quiet w).1
     = match lines_read raw with
       | None => Raise UnicodeDecodeError
       | Some out =>
           if rc =? 0 then Ok out
           else if Utf8.valid err then Raise (CommandError cmd rc)
           else Raise UnicodeDecodeError
       end.
Proof.
  intros rc raw err. destruct (run_result env cmd quietcmd quiet w) as [Hw Hr].
  split; [apply went_session; exact Hw | exact Hr].
Qed.

(** X9. [mount] runs the overlay mount command.  When [run] raises on it
    (a status other than 0, or output that is not UTF-8) the error is
    raised and nothing is probed; otherwise [usr/bin/apt] under the mount
    point is probed, once, and [mount] returns if the file is there and
    raises [AssertionError] if it is not. *)
Theorem mount_outcome (env : environment) (lower upper work mnt : string) (w : world) :
  let cmd := mount_cmd lower upper work mnt in
  let rc := (popen_env env (trace w) cmd).1.1 in
  let raw := (popen_env env (trace w) cmd).1.2 in
  let err := (popen_env env (trace w) cmd).2 in
  let found := is_file_env env (trace w ++ [Exec cmd rc]) (mnt </> "usr/bin/apt") in
  let r := mount env lower upper work mnt w in
  match run_answer cmd rc raw err with
  | Ok _ =>
      session_events w r.2 = [Exec cmd rc; Probe (mnt </> "usr/bin/apt") found]
      /\ r.1 = (if found then Ok () else Raise (AssertionError ""))
  | Raise e =>
      session_events w r.2 = [Exec cmd rc] /\ r.1 = Raise e
  end.
Proof.
  intros cmd rc raw err found r. subst r. unfold mount. fold cmd. unfold mbind, M_bind.
  destruct (run_result env cmd false false w) as [Hw Hr]. fold rc raw err in Hw, Hr.
  destruct (run env cmd false false w) as [r1 w1]. simpl in Hw, Hr. subst r1.
  destruct (run_answer cmd rc raw err) as [out|e].
  - unfold is_file. destruct Hw as (Ht & Hd & Hf).
    rewrite Ht. fold found.
    split.
    + apply session_events_app. destruct found; simpl; rewrite Ht, <- app_assoc; reflexivity.
    + destruct found; reflexivity.
  - split; [apply went_session; exact Hw | reflexivity].
Qed.

(** X10. In each [try ... finally: umount(mnt)] the unmount command is run
    whatever the body did, and a failure of [umount] replaces the outcome
    of the body: the result is the one of the body when the [run] of the
    unmount command returns, and the error of that [run] otherwise, also
    when the body had raised an error of its own. *)
Theorem umount_failure_replaces_outcome {A} (env : environment) (body : M A)
    (mnt : string) (w : world) :
  let b := body w in
  let rc := (popen_env env (trace b.2) (umount_cmd mnt)).1.1 in
  let raw := (popen_env env (trace b.2) (umount_cmd mnt)).1.2 in
  let err := (popen_env env (trace b.2) (umount_cmd mnt)).2 in
  let r := try_finally body (umount env mnt) w in
  session_events b.2 r.2 = [Exec (umount_cmd mnt) rc]
  /\ r.1 = match run_answer (umount_cmd mnt) rc raw err with
           | Ok _ => b.1
           | Raise e => Raise e
           end.
Proof.
  intros b rc raw err r. subst r b. unfold try_finally.
  destruct (body w) as [rb w1]. simpl in rc, raw, err. simpl fst. simpl snd.
  unfold umount, mbind, M_bind.
  destruct (run_result env (umount_cmd mnt) false false w1) as [Hw Hr]. fold rc raw err in Hw, Hr.
  destruct (run env (umount_cmd mnt) false false w1) as [r1 w2]. simpl in Hw, Hr. subst r1.
  apply went_session in Hw.
  destruct (run_answer (umount_cmd mnt) rc raw err); simpl; auto.
Qed.

(** ** Missing layers *)

(** X11. On a cache without the base system of the codename, neither
    [create_l1] nor [build] bootstraps it: both stop with [TypeError] at
    the message of [create_l1], before any directory is made and any
    command is run, and leave the world as it was. *)
Theorem missing_base_system_stops (env : environment) (conf : conf_t) (w : world) :
  l1dir_of conf ∉ dirs w ->
  create_l1 env conf (l1dir_of conf) w = (Raise TypeError, w)
  /\ build env conf w = (Raise TypeError, w).
Proof.
  intros H. pose proof (create_l1_raises env conf (l1dir_of conf) w H) as Hc.
  split; [exact Hc|].
  unfold build, build_fingerprint. cbv zeta. unfold mbind, M_bind, path_exists.
  rewrite bool_decide_eq_false_2 by assumption.
  change (negb false) with true. cbv iota. rewrite Hc. reflexivity.
Qed.

Lemma missing_base_system_stops_witness :
  create_l1 Scenario.all_fine Scenario.sid (l1dir_of Scenario.sid) Scenario.empty_cache
  = (Raise TypeError, Scenario.empty_cache)
  /\ build Scenario.all_fine Scenario.sid Scenario.empty_cache
     = (Raise TypeError, Scenario.empty_cache).
Proof.
  apply (missing_base_system_stops Scenario.all_fine Scenario.sid Scenario.empty_cache).
  intros Hin. apply (bool_decide_pack _) in Hin. vm_compute in Hin. exact Hin.
Defined.

(** X12. When the base system is there and the L2 directory of the
    fingerprint is not, [build] runs the simulated dependency run and
    nothing else: it raises [TypeError] in [create_l2], and no directory
    is made. *)
Theorem build_stops_without_l2 (env : environment) (conf : conf_t) (w wf : world)
    (deps : list dep) (F : string) :
  build_fingerprint env conf w = (Ok (deps, F), wf) ->
  fs_dir conf "l2" F ∉ dirs w ->
  (build env conf w).1 = Raise TypeError
  /\ went w [Exec (simulate_cmd conf) 0] (build env conf w).2.
Proof.
  intros Hf Hl2.
  destruct (build_fingerprint_returns env conf w _ wf Hf) as [_ Hw].
  assert (Hd : dirs wf = dirs w).
  { destruct Hw as (_ & Hd & _). rewrite Hd. unfold made. simpl. apply set_eq. set_solver. }
  assert (Hb : build env conf w = (Raise TypeError, say Info "[L1] Ready" wf)).
  { unfold build, mbind at 1, M_bind at 1. rewrite Hf.
    unfold build_layers. cbv zeta. unfold mbind, M_bind, path_exists. simpl.
    rewrite Hd, bool_decide_eq_false_2 by assumption. reflexivity. }
  rewrite Hb. split; [reflexivity|]. simpl snd.
  change [Exec (simulate_cmd conf) 0] with ([Exec (simulate_cmd conf) 0] ++ []).
  eapply went_trans; [exact Hw | apply went_console].
Qed.

Lemma build_stops_without_l2_witness :
  (build Scenario.all_fine Scenario.sid base_only).1 = Raise TypeError
  /\ went base_only [Exec (simulate_cmd Scenario.sid) 0]
          (build Scenario.all_fine Scenario.sid base_only).2.
Proof.
  apply (build_stops_without_l2 Scenario.all_fine Scenario.sid base_only
           (build_fingerprint Scenario.all_fine Scenario.sid base_only).2 libs Scenario.l2_hash).
  - vm_compute. reflexivity.
  - intros Hin. apply (bool_decide_pack _) in Hin. vm_compute in Hin. exact Hin.
Defined.

(** X13. [build] creates no layer: it returns only on a cache that held,
    before it started, the base system and the L2 and L3 content
    directories of the fingerprint of the source tree, and it leaves the
    set of directories as it was. *)
Theorem build_needs_existing_layers (env : environment) (conf : conf_t) (w w' : world) :
  build env conf w = (Ok (), w') ->
  exists deps F wf,
    build_fingerprint env conf w = (Ok (deps, F), wf)
    /\ l1dir_of conf ∈ dirs w
    /\ fs_dir conf "l2" F ∈ dirs w
    /\ fs_dir conf "l3" F ∈ dirs w
    /\ dirs w' = dirs w.
Proof.
  intros H. destruct (build_returns env conf w w' H) as (deps & F & wf & Hf & H1 & H2 & H3 & _).
  exists deps, F, wf. repeat (split; [assumption|]).
  pose proof (build_same_cache env conf w) as [Hd _]. rewrite H in Hd. exact Hd.
Qed.

Lemma build_needs_existing_layers_witness :
  exists deps F wf,
    build_fingerprint Scenario.all_fine Scenario.sid cache_with_old_package = (Ok (deps, F), wf)
    /\ l1dir_of Scenario.sid ∈ dirs cache_with_old_package
    /\ fs_dir Scenario.sid "l2" F ∈ dirs cache_with_old_package
    /\ fs_dir Scenario.sid "l3" F ∈ dirs cache_with_old_package
    /\ dirs (build Scenario.all_fine Scenario.sid cache_with_old_package).2
       = dirs cache_with_old_package.
Proof.
  apply (build_needs_existing_layers Scenario.all_fine Scenario.sid cache_with_old_package).
  vm_compute. reflexivity.
Defined.

(** ** [update] *)

(** X16. [update] does not look at the cache: it runs the package-list
    update in the L1 directory, and the distribution upgrade only after
    the [run] of the update has returned; the error of the first [run]
    that fails is raised, and it returns when both return. *)
Theorem update_outcome (env : environment) (conf : conf_t) (l1dir : string) (w : world) :
  let a1 := popen_env env (trace w) (update_cmd l1dir) in
  let t1 := trace w ++ [Exec (update_cmd l1dir) a1.1.1] in
  let a2 := popen_env env t1 (dist_upgrade_cmd l1dir) in
  let r := update_l1 env conf l1dir w in
  match run_answer (update_cmd l1dir) a1.1.1 a1.1.2 a1.2 with
  | Raise e =>
      session_events w r.2 = [Exec (update_cmd l1dir) a1.1.1] /\ r.1 = Raise e
  | Ok _ =>
      session_events w r.2
      = [Exec (update_cmd l1dir) a1.1.1; Exec (dist_upgrade_cmd l1dir) a2.1.1]
      /\ r.1 = match run_answer (dist_upgrade_cmd l1dir) a2.1.1 a2.1.2 a2.2 with
               | Ok _ => Ok ()
               | Raise e => Raise e
               end
  end.
Proof.
  intros a1 t1 a2 r. subst r. unfold update_l1, nspawn.
  fold (update_cmd l1dir). fold (dist_upgrade_cmd l1dir).
  unfold mbind, M_bind.
  change (info [Str ("Updating " ++ l1dir)] w)
    with (@Ok unit (), say Info ("Updating " ++ l1dir) w).
  set (w0 := say Info _ w).
  assert (H0 : went w [] w0) by apply went_console.
  destruct (run_result env (update_cmd l1dir) false false w0) as [Hw Hr].
  change (trace w0) with (trace w) in Hw, Hr. fold a1 in Hw, Hr.
  destruct (run env (update_cmd l1dir) false false w0) as [r1 w1]. simpl in Hw, Hr. subst r1.
  assert (Hw' : went w [Exec (update_cmd l1dir) a1.1.1] w1).
  { change [Exec (update_cmd l1dir) a1.1.1] with ([] ++ [Exec (update_cmd l1dir) a1.1.1]).
    eapply went_trans; eassumption. }
  destruct (run_answer (update_cmd l1dir) a1.1.1 a1.1.2 a1.2) as [out|e].
  - destruct (run_result env (dist_upgrade_cmd l1dir) false false w1) as [Hw2 Hr2].
    assert (Ht : trace w1 = t1).
    { destruct Hw' as (Ht & _). exact Ht. }
    rewrite Ht in Hw2, Hr2. fold a2 in Hw2, Hr2.
    destruct (run env (dist_upgrade_cmd l1dir) false false w1) as [r2 w2].
    simpl in Hw2, Hr2. subst r2.
    pose proof (went_trans _ _ _ _ _ Hw' Hw2) as Hall. apply went_session in Hall.
    destruct (run_answer (dist_upgrade_cmd l1dir) a2.1.1 a2.1.2 a2.2); simpl; auto.
  - simpl. split; [apply went_session; exact Hw' | reflexivity].
Qed.

(** ** [show] *)

Definition mounts_listing : string := "mount | grep ^overlay | cat".
Definition containers_listing : string := "machinectl list | grep conbuilder | cat".

(** What [show] may do: list the mounts and the containers, measure a
    layer, look for the manifest of a layer and read it. *)
Definition is_show_event (e : event) : Prop :=
  match e with
  | Exec cmd _ =>
      cmd = mounts_listing \/ cmd = containers_listing
      \/ exists item, cmd = format "sudo du -hs {}" [item]
  | Probe p _ | Read p _ => exists item, p = item </> manifest_name
  | Mkdir _ _ | Write _ _ _ => False
  end.


Lemma create_l2_layer_returns_witness :
  (fs_dir Scenario.sid "l2" Scenario.l2_hash ∉ dirs base_only)
  /\ went base_only (create_l2_events Scenario.sid libs Scenario.l2_hash)
          (create_l2_layer Scenario.all_fine Scenario.sid (l1dir_of Scenario.sid)
             (fs_dir Scenario.sid "l2" Scenario.l2_hash)
             (work_dir Scenario.sid "l2" Scenario.l2_hash)
             (mount_dir Scenario.sid "l2" Scenario.l2_hash) libs base_only).2.
Proof.
  apply (create_l2_layer_returns Scenario.all_fine Scenario.sid libs Scenario.l2_hash base_only).
  vm_compute. reflexivity.
Defined.

(** X20. The variable [success] of [build] is [True] whenever the two
    [try] blocks are left without an exception: the early return
    [if not success: return] is never taken, and a build that does not
    raise always reaches the export. *)
Theorem early_return_is_dead (env : environment) (conf : conf_t) (deps : list dep)
    (F : string) (w w' : world) (success : bool) :
  build_layers env conf deps F w = (Ok success, w') -> success = true.
Proof. intros H. apply build_layers_returns in H as [-> _]. reflexivity. Qed.

Lemma early_return_is_dead_witness :
  build_layers Scenario.all_fine Scenario.sid libs Scenario.l2_hash cache_with_old_package
  = (Ok true,
     (build_layers Scenario.all_fine Scenario.sid libs Scenario.l2_hash cache_with_old_package).2)
  /\ true = true.
Proof.
  split; [vm_compute; reflexivity|].
  apply (early_return_is_dead Scenario.all_fine Scenario.sid libs Scenario.l2_hash
           cache_with_old_package
           (build_layers Scenario.all_fine Scenario.sid libs Scenario.l2_hash
                         cache_with_old_package).2 true).
  vm_compute. reflexivity.
Defined.

(** X21. The part of [install] after its message brackets its mount as
    [build] does: whatever happens in it, the mount of the temporary
    layer is followed by one unmount of the same mount point, so the
    session has as many unmount calls as mount calls. *)
Theorem install_layer_balanced (env : environment) (conf : conf_t) (w : world) :
  let d := session_events w (install_layer env conf w).2 in
  balanced d /\ umount_calls d = mount_calls d.
Proof.
  intros d.
  assert (H : emits any_world (install_layer env conf) balanced).
  { unfold install_layer. cbv zeta.
    apply emits_bind; [typeclasses eauto | | intros ?].
    - emits_walk ltac:(apply balanced_one; reflexivity).
    - apply mount_bracket; [typeclasses eauto|].
      emits_walk ltac:(first [ apply balanced_one; first [reflexivity | apply nspawn_cmd_not_mount] ]). }
  destruct (H w I) as (d0 & Hd0 & Hbal & _).
  assert (Hd : d = d0) by (apply session_events_app; exact Hd0).
  rewrite Hd. split; [exact Hbal | apply balanced_counts; exact Hbal].
Qed.

(** ** [extract_build_dependencies] *)

(** X22. [extract_build_dependencies] runs one command, the simulated
    dependency run in the read-only base system.  When the [run] of it
    fails (a status other than 0, or output that is not UTF-8) its error
    is raised; otherwise the result is the parse and the fingerprint of
    the lines it printed, so the fingerprint is a function of that output
    alone. *)
Theorem extract_outcome (env : environment) (l1dir : string) (w : world) :
  let cmd := nspawn_cmd (extract_cmd l1dir) "" "" in
  let rc := (popen_env env (trace w) cmd).1.1 in
  let raw := (popen_env env (trace w) cmd).1.2 in
  let err := (popen_env env (trace w) cmd).2 in
  let r := extract_build_dependencies env l1dir w in
  session_events w r.2 = [Exec cmd rc]
  /\ r.1 = match run_answer cmd rc raw err with
           | Ok out => fingerprint_of_output out
           | Raise e => Raise e
           end.
Proof.
  intros cmd rc raw err r. subst r. unfold extract_build_dependencies, nspawn. fold cmd.
  unfold mbind, M_bind.
  destruct (run_result env cmd false true w) as [Hw Hr]. fold rc raw err in Hw, Hr.
  destruct (run env cmd false true w) as [r1 w1]. simpl in Hw, Hr. subst r1.
  apply went_session in Hw.
  destruct (run_answer cmd rc raw err) as [out|e]; simpl; [|auto].
  destruct (fingerprint_of_output out); simpl; auto.
Qed.

(** ** The whole program *)

(** X14. What [main] does, action by action, whatever the configuration,
    the cache and the answers of the environment.  [create], [install]
    and [purge] run no command, make no directory and write no file:
    their session is empty ([create] and [install] stop before their
    first [mkdir], [purge] raises).  [update] runs nothing but its two
    package-tool commands, [build] nothing but the events of
    [build_event], [show] nothing but its listings, measures and reads of
    manifests.  So in no session does the program make a directory or
    write a file itself. *)
Theorem main_pinned (env : environment) (conf : conf_t) (w : world) :
  let d := session_events w (main env conf w).2 in
  match action conf with
  | Create | Install | Purge => d = []
  | Update => Forall (is_update_event (l1dir_of conf)) d
  | Build => Forall (build_event env conf) d
  | Show => Forall is_show_event d
  end.
Proof.
  intros d. subst d. unfold main.
  assert (Hsession : forall (P : list event -> Prop) (m : M unit),
            emits any_world m P -> P (session_events w (m w).2)).
  { intros P m Hm. destruct (Hm w I) as (d & Hd & HP & _).
    rewrite (session_events_app _ _ _ Hd). exact HP. }
  destruct (action conf).
  - apply session_events_app. rewrite app_nil_r.
    unfold create_l1, mbind, M_bind, path_exists.
    destruct (bool_decide (l1dir_of conf ∈ dirs w)); reflexivity.
  - apply (Hsession (Forall (is_update_event (l1dir_of conf)))). unfold update_l1.
    emits_walk ltac:(constructor;
                     [eexists; (left; reflexivity) || (right; reflexivity) | constructor]).
  - apply (Hsession (Forall (build_event env conf))). apply build_pinned.
  - rewrite install_raises. apply (session_events_app w w []). rewrite app_nil_r. reflexivity.
  - apply (session_events_app w w []). simpl. rewrite app_nil_r. reflexivity.
  - apply (Hsession (Forall is_show_event)). unfold show.
    emits_walk ltac:(constructor; [simpl; eauto | constructor]).
Qed.
